(** * Colour-space conversions of the chromaticity colour picker

    A shallow embedding of [src/utils/colorConversions.ts] and of the
    computations of the picker component that calls it
    ([src/components/ChromaticityColorPicker.tsx]).

    Number model.  A TypeScript [number] is read as a real number: [+ - * /]
    are the field operations of [R], comparisons are the order of [R], and
    the [Math] functions are their mathematical counterparts.  Rounding of
    binary64 arithmetic, NaN and the infinities are outside the model, so a
    statement below speaks about the formulas the code evaluates, not about
    the last bits of a double.  Integer-valued numbers that are printed
    ([Math.round] results) are carried as [Z].

    Where the last bits decide (a sum that rounds up to a bound), the
    function is repeated on the kernel's binary64 numbers in [Binary64] and
    evaluated there; bounds proved over the reals are stated with room for
    the rounding. *)

From Stdlib Require Import Reals Lra Lia ZArith String Ascii List DecimalString.
From Stdlib Require HexadecimalString Floats.
Import ListNotations.

Open Scope R_scope.

(** ** The fragment of JavaScript's numeric library used by the source *)

Module JS.

(** [a >= b], [a <= b], [a > b], [a < b] and [a === b] as booleans. *)
Definition geb (a b : R) : bool := if Rge_dec a b then true else false.
Definition leb (a b : R) : bool := if Rle_dec a b then true else false.
Definition gtb (a b : R) : bool := if Rgt_dec a b then true else false.
Definition ltb (a b : R) : bool := if Rlt_dec a b then true else false.
Definition eqb (a b : R) : bool := if Req_dec_T a b then true else false.

(** [Math.max], [Math.min] on two arguments. *)
Definition Math_max (a b : R) : R := Rmax a b.
Definition Math_min (a b : R) : R := Rmin a b.

(** [Math.round]: the nearest integer, a tie going up: floor (x + 1/2). *)
Definition Math_round (v : R) : Z := Int_part (v + / 2).

(** [Math.sqrt]. *)
Definition Math_sqrt (v : R) : R := sqrt v.

(** [Math.pow base e].  An integral exponent is repeated multiplication (or
    its reciprocal), whatever the sign of the base; otherwise, on a
    positive base, it is exp (e * ln base); [pow 0 e] with a positive
    fractional [e] is 0.  (A negative base with a fractional exponent is
    NaN in JavaScript and is not represented; the source never does it on
    the inputs considered below.) *)
Definition Math_pow (base e : R) : R :=
  if Req_dec_T e (IZR (Int_part e)) then powerRZ base (Int_part e)
  else if Rlt_dec 0 base then Rpower base e
  else 0.

(** [Math.atan2 y x]: the angle of the point (x, y), in (-PI, PI]. *)
Definition Math_atan2 (y x : R) : R :=
  if Rlt_dec 0 x then atan (y / x)
  else if Rlt_dec x 0 then
    (if Rle_dec 0 y then atan (y / x) + PI else atan (y / x) - PI)
  else if Rlt_dec 0 y then PI / 2
  else if Rlt_dec y 0 then - PI / 2
  else 0.

Definition Math_PI : R := PI.

(** Number-to-string of an integer-valued number: its decimal digits. *)
Definition toString (n : Z) : string := NilZero.string_of_int (Z.to_int n).

Fixpoint zeros (k : nat) : string :=
  match k with
  | O => EmptyString
  | S k' => String "0" (zeros k')
  end.

(** The digit steps of [Number.prototype.toFixed]: [n] is the integer
    nearest to x * 10^f; its digits are left-padded with zeros to f + 1
    characters and a point is put before the last f of them. *)
Definition fixed_string (n : Z) (f : nat) : string :=
  let m := toString n in
  if Nat.eqb f 0 then m
  else
    let k := String.length m in
    let m := if Nat.leb k f then (zeros (f + 1 - k) ++ m)%string else m in
    let k := String.length m in
    (substring 0 (k - f) m ++ "." ++ substring (k - f) f m)%string.

(** [x.toFixed(f)]: of the integers n with n / 10^f nearest to x, the
    larger one, i.e. floor (x * 10^f + 1/2), printed by [fixed_string];
    a negative x is printed as "-" followed by the result for -x. *)
Definition toFixed (v : R) (f : nat) : string :=
  let s := if ltb v 0 then "-"%string else EmptyString in
  let x := if ltb v 0 then - v else v in
  let n := Int_part (x * 10 ^ f + / 2) in
  (s ++ fixed_string n f)%string.

End JS.

Import JS.

Infix ">=?" := JS.geb (at level 70, no associativity) : R_scope.
Infix "<=?" := JS.leb (at level 70, no associativity) : R_scope.
Infix ">?" := JS.gtb (at level 70, no associativity) : R_scope.
Infix "<?" := JS.ltb (at level 70, no associativity) : R_scope.
Infix "===" := JS.eqb (at level 70, no associativity) : R_scope.

(** ** Data model (the interfaces of the source) *)

Record XYZColor := mkXYZ { xyz_x : R; xyz_y : R; xyz_z : R }.

(** [xyColor]: chromaticity x, y and luminance Y. *)
Record xyColor := mkxyY { xy_x : R; xy_y : R; xy_Y : R }.

Record RGBColor := mkRGB { rgb_r : R; rgb_g : R; rgb_b : R }.

Record LABColor := mkLAB { lab_l : R; lab_a : R; lab_b : R }.

Record OKLCHColor := mkOKLCH { oklch_l : R; oklch_c : R; oklch_h : R }.

Inductive ColorSpace := sRGB | P3 | Rec2020 | XYZ | LAB | OKLCH.

(** ** Matrices *)

Definition matrix := list (list R).

(** [m[i][j]] *)
Definition at_ (m : matrix) (i j : nat) : R := nth j (nth i m []) 0.

Definition sRGB_MATRIX : matrix :=
  [ [3.2406; -1.5372; -0.4986];
    [-0.9689; 1.8758; 0.0415];
    [0.0557; -0.2040; 1.0570] ].

Definition P3_MATRIX : matrix :=
  [ [2.4934; -0.9313; -0.4027];
    [-0.8295; 1.7627; 0.0236];
    [0.0358; -0.0761; 0.9569] ].

Definition REC2020_MATRIX : matrix :=
  [ [1.7167; -0.3557; -0.2534];
    [-0.6667; 1.6165; 0.0158];
    [0.0176; -0.0428; 0.9421] ].

(** ** XYZ <-> xyY *)

Definition XYZToxyY (xyz : XYZColor) : xyColor :=
  let sum := xyz_x xyz + xyz_y xyz + xyz_z xyz in
  if sum === 0 then mkxyY 0 0 0
  else mkxyY (xyz_x xyz / sum) (xyz_y xyz / sum) (xyz_y xyz).

Definition xyYToXYZ (xyY : xyColor) : XYZColor :=
  if xy_y xyY === 0 then mkXYZ 0 0 0
  else
    let Y := xy_Y xyY in
    let x := (xy_x xyY * Y) / xy_y xyY in
    let z := ((1 - xy_x xyY - xy_y xyY) * Y) / xy_y xyY in
    mkXYZ x Y z.

(** ** XYZ <-> RGB *)

Definition XYZToRGB (xyz : XYZColor) (colorSpace : ColorSpace) : RGBColor :=
  let m :=
    match colorSpace with
    | P3 => P3_MATRIX
    | Rec2020 => REC2020_MATRIX
    | _ => sRGB_MATRIX
    end in
  let r := at_ m 0 0 * xyz_x xyz + at_ m 0 1 * xyz_y xyz + at_ m 0 2 * xyz_z xyz in
  let g := at_ m 1 0 * xyz_x xyz + at_ m 1 1 * xyz_y xyz + at_ m 1 2 * xyz_z xyz in
  let b := at_ m 2 0 * xyz_x xyz + at_ m 2 1 * xyz_y xyz + at_ m 2 2 * xyz_z xyz in
  mkRGB r g b.

Definition RGBToXYZ (rgb : RGBColor) (colorSpace : ColorSpace) : XYZColor :=
  let m : matrix :=
    match colorSpace with
    | P3 =>
        [ [0.4865; 0.2657; 0.1982];
          [0.2290; 0.6917; 0.0793];
          [0.0000; 0.0451; 1.0439] ]
    | Rec2020 =>
        [ [0.6370; 0.1446; 0.1689];
          [0.2627; 0.6780; 0.0593];
          [0.0000; 0.0281; 1.0609] ]
    | _ =>
        [ [0.4124; 0.3576; 0.1805];
          [0.2126; 0.7152; 0.0722];
          [0.0193; 0.1192; 0.9505] ]
    end in
  let x := at_ m 0 0 * rgb_r rgb + at_ m 0 1 * rgb_g rgb + at_ m 0 2 * rgb_b rgb in
  let y := at_ m 1 0 * rgb_r rgb + at_ m 1 1 * rgb_g rgb + at_ m 1 2 * rgb_b rgb in
  let z := at_ m 2 0 * rgb_r rgb + at_ m 2 1 * rgb_g rgb + at_ m 2 2 * rgb_b rgb in
  mkXYZ x y z.

(** ** Gamma pipeline *)

Definition gammaCorrect (value : R) : R :=
  if value <=? 0.0031308 then 12.92 * value
  else 1.055 * Math_pow value (1 / 2.4) - 0.055.

Definition gammaUncorrect (value : R) : R :=
  if value <=? 0.04045 then value / 12.92
  else Math_pow ((value + 0.055) / 1.055) 2.4.

(** ** XYZ -> LAB -> OKLCH *)

Definition labF (t : R) : R :=
  if t >? 0.008856 then Math_pow t (1 / 3) else 7.787 * t + 16 / 116.

Definition XYZToLAB (xyz : XYZColor) : LABColor :=
  let xn := 0.95047 in
  let yn := 1.00000 in
  let zn := 1.08883 in
  let fx := labF (xyz_x xyz / xn) in
  let fy := labF (xyz_y xyz / yn) in
  let fz := labF (xyz_z xyz / zn) in
  let l := 116 * fy - 16 in
  let a := 500 * (fx - fy) in
  let b := 200 * (fy - fz) in
  mkLAB l a b.

Definition LABToOKLCH (lab : LABColor) : OKLCHColor :=
  let l := lab_l lab / 100 in
  let c := Math_sqrt (lab_a lab * lab_a lab + lab_b lab * lab_b lab) / 100 in
  let h := Math_atan2 (lab_b lab) (lab_a lab) * 180 / Math_PI in
  mkOKLCH l c (if h <? 0 then h + 360 else h).

(** ** CSS serialization *)

Definition generateCSSColor (rgb : RGBColor) (colorSpace : ColorSpace) : string :=
  let r := Math_round (Math_max 0 (Math_min 255 (rgb_r rgb))) in
  let g := Math_round (Math_max 0 (Math_min 255 (rgb_g rgb))) in
  let b := Math_round (Math_max 0 (Math_min 255 (rgb_b rgb))) in
  match colorSpace with
  | P3 =>
      ("color(display-p3 " ++ toFixed (IZR r / 255) 4 ++ " "
         ++ toFixed (IZR g / 255) 4 ++ " " ++ toFixed (IZR b / 255) 4 ++ ")")%string
  | Rec2020 =>
      ("color(rec2020 " ++ toFixed (IZR r / 255) 4 ++ " "
         ++ toFixed (IZR g / 255) 4 ++ " " ++ toFixed (IZR b / 255) 4 ++ ")")%string
  | _ =>
      ("rgb(" ++ toString r ++ ", " ++ toString g ++ ", " ++ toString b ++ ")")%string
  end.

(** ** Gamut test *)

Definition isInGamut (rgb : RGBColor) : bool :=
  (rgb_r rgb >=? 0) && (rgb_r rgb <=? 255) &&
  (rgb_g rgb >=? 0) && (rgb_g rgb <=? 255) &&
  (rgb_b rgb >=? 0) && (rgb_b rgb <=? 255).

(** ** Colour temperature *)

Definition getColorTemperature (x y : R) : R :=
  let n := (x - 0.3320) / (0.1858 - y) in
  449 * Math_pow n 3 + 3525 * Math_pow n 2 + 6823.3 * n + 5520.33.

(** ** Vocabulary of the statements *)

(** [a] and [b] differ by at most [tol]. *)
Definition within (tol a b : R) : Prop := Rabs (a - b) <= tol.


Definition rgb_close (tol : R) (p q : RGBColor) : Prop :=
  within tol (rgb_r p) (rgb_r q) /\
  within tol (rgb_g p) (rgb_g q) /\
  within tol (rgb_b p) (rgb_b q).

(** Every channel lies in the display range [0,255]. *)
Definition in_display_range (rgb : RGBColor) : Prop :=
  0 <= rgb_r rgb <= 255 /\ 0 <= rgb_g rgb <= 255 /\ 0 <= rgb_b rgb <= 255.

(** The spaces that have a matrix pair of their own. *)
Definition matrix_space (cs : ColorSpace) : Prop :=
  cs = sRGB \/ cs = P3 \/ cs = Rec2020.

(** What the product of the two rounded matrices of a space loses on a
    channel in [0,255], rounded up to three decimals. *)
Definition roundtrip_tolerance (cs : ColorSpace) : R :=
  match cs with
  | P3 => 0.069
  | Rec2020 => 0.032
  | _ => 0.016
  end.

(** Clamping to [0,255], said directly. *)
Definition clamp255 (v : R) : R :=
  if Rlt_dec v 0 then 0 else if Rlt_dec 255 v then 255 else v.

(** [c] is the integer nearest to [v], the upper one at a tie. *)
Definition nearest_integer (v : R) (c : Z) : Prop :=
  IZR c - / 2 <= v < IZR c + / 2.

(** A channel of the CSS text: the clamped value, rounded, in 0..255. *)
Definition clamped_rounded (v : R) (c : Z) : Prop :=
  (0 <= c <= 255)%Z /\ nearest_integer (clamp255 v) c.

Definition digit_char (d : Z) : ascii := ascii_of_nat (48 + Z.to_nat d).

(** [n] ten-thousandths written with four decimals. *)
Definition decimal4 (n : Z) : string :=
  (toString (n / 10000) ++ "." ++
   String (digit_char (n / 1000 mod 10))
     (String (digit_char (n / 100 mod 10))
        (String (digit_char (n / 10 mod 10))
           (String (digit_char (n mod 10)) EmptyString))))%string.

(** The number of ten-thousandths nearest to c / 255. *)
Definition quotient_255_e4 (c : Z) : Z := ((20000 * c + 255) / 510)%Z.

Definition rgb_text (r g b : Z) : string :=
  ("rgb(" ++ toString r ++ ", " ++ toString g ++ ", " ++ toString b ++ ")")%string.

Definition display_p3_text (r g b : Z) : string :=
  ("color(display-p3 " ++ decimal4 (quotient_255_e4 r) ++ " "
     ++ decimal4 (quotient_255_e4 g) ++ " "
     ++ decimal4 (quotient_255_e4 b) ++ ")")%string.

(** ** RGB -> HSL *)

Record HSLColor := mkHSL { hsl_h : R; hsl_s : R; hsl_l : R }.

(** [Math.max(a, b, c)] and [Math.min(a, b, c)]. *)
Definition Math_max3 (a b c : R) : R := Math_max (Math_max a b) c.
Definition Math_min3 (a b c : R) : R := Math_min (Math_min a b) c.

(** The [switch (max)] of the source tries [case r], [case g], [case b] in
    this order with [===]; [h] keeps its initial 0 if none matches. *)
Definition RGBToHSL (rgb : RGBColor) : HSLColor :=
  let r := rgb_r rgb / 255 in
  let g := rgb_g rgb / 255 in
  let b := rgb_b rgb / 255 in
  let max := Math_max3 r g b in
  let min := Math_min3 r g b in
  let diff := max - min in
  let h0 := 0 in
  let s0 := 0 in
  let l := (max + min) / 2 in
  let hs :=
    if negb (diff === 0) then
      let s := if l >? 0.5 then diff / (2 - max - min) else diff / (max + min) in
      let h :=
        if max === r then (g - b) / diff + (if g <? b then 6 else 0)
        else if max === g then (b - r) / diff + 2
        else if max === b then (r - g) / diff + 4
        else h0 in
      (h / 6, s)
    else (h0, s0) in
  mkHSL (fst hs * 360) (snd hs * 100) (l * 100).

(** ** Constants of the diagram *)

Definition D65_WHITE_POINT : xyColor := mkxyY 0.3127 0.3290 1.0.

(** A polygon point {x, y}. *)
Record xyPoint := mkPoint { pt_x : R; pt_y : R }.

Definition CHROMATICITY_BOUNDARY : list xyPoint :=
  [ mkPoint 0.7347 0.2653; mkPoint 0.2738 0.7174;
    mkPoint 0.1666 0.0089; mkPoint 0.7347 0.2653 ].

Definition SRGB_GAMUT : list xyPoint :=
  [ mkPoint 0.64 0.33; mkPoint 0.30 0.60; mkPoint 0.15 0.06; mkPoint 0.64 0.33 ].

Definition P3_GAMUT : list xyPoint :=
  [ mkPoint 0.68 0.32; mkPoint 0.265 0.69; mkPoint 0.15 0.06; mkPoint 0.68 0.32 ].

Definition REC2020_GAMUT : list xyPoint :=
  [ mkPoint 0.708 0.292; mkPoint 0.170 0.797; mkPoint 0.131 0.046;
    mkPoint 0.708 0.292 ].

(** ** The picker component ([src/components/ChromaticityColorPicker.tsx])

    Only the computations are embedded: the React state is passed in as
    arguments and the new state is the result; the canvas is taken to be
    mounted. *)

Definition CANVAS_WIDTH : R := 400.
Definition CANVAS_HEIGHT : R := 400.
Definition DIAGRAM_SIZE : R := 350.
Definition DIAGRAM_OFFSET_X : R := 25.
Definition DIAGRAM_OFFSET_Y : R := 25.

(** Where [drawChromaticityDiagram] puts a chromaticity on the canvas (the
    same two expressions for polygon points, the marker [currentX],
    [currentY] and the white point). *)
Definition canvasX (cx : R) : R := DIAGRAM_OFFSET_X + cx * DIAGRAM_SIZE.
Definition canvasY (cy : R) : R := DIAGRAM_OFFSET_Y + (1 - cy) * DIAGRAM_SIZE.

(** [handleCanvasInteraction]: [x], [y] are the pointer position relative to
    the canvas ([event.clientX - rect.left], [event.clientY - rect.top]);
    the result is the new [currentXY] and the new [currentColor]. *)
Definition handleCanvasInteraction (x y luminance : R)
    (selectedColorSpace : ColorSpace) : xyColor * RGBColor :=
  let chromaticityX := (x - DIAGRAM_OFFSET_X) / DIAGRAM_SIZE in
  let chromaticityY := 1 - (y - DIAGRAM_OFFSET_Y) / DIAGRAM_SIZE in
  let clampedX := Math_max 0 (Math_min 1 chromaticityX) in
  let clampedY := Math_max 0 (Math_min 1 chromaticityY) in
  let newXY := mkxyY clampedX clampedY luminance in
  let xyz := xyYToXYZ newXY in
  let rgb := XYZToRGB xyz selectedColorSpace in
  let correctedRgb :=
    mkRGB (Math_max 0 (Math_min 255 (gammaCorrect (rgb_r rgb) * 255)))
          (Math_max 0 (Math_min 255 (gammaCorrect (rgb_g rgb) * 255)))
          (Math_max 0 (Math_min 255 (gammaCorrect (rgb_b rgb) * 255))) in
  (newXY, correctedRgb).

(** The bundle handed to [onColorChange], derived from the current colour
    and colour space. *)
Record ColorInfo := mkColorInfo {
  ci_rgb : RGBColor;
  ci_hsl : HSLColor;
  ci_lab : LABColor;
  ci_oklch : OKLCHColor;
  ci_xy : xyColor;
  ci_colorSpace : ColorSpace;
  ci_cssColor : string
}.

Definition colorInfo (currentColor : RGBColor) (selectedColorSpace : ColorSpace)
    : ColorInfo :=
  let xyz := RGBToXYZ currentColor selectedColorSpace in
  let hsl := RGBToHSL currentColor in
  let lab := XYZToLAB xyz in
  let oklch := LABToOKLCH lab in
  let xy := XYZToxyY xyz in
  let cssColor := generateCSSColor currentColor selectedColorSpace in
  mkColorInfo currentColor hsl lab oklch xy selectedColorSpace cssColor.

(** The "RGB" export text. *)
Definition rgbExport (currentColor : RGBColor) : string :=
  ("rgb(" ++ toString (Math_round (rgb_r currentColor)) ++ ", "
     ++ toString (Math_round (rgb_g currentColor)) ++ ", "
     ++ toString (Math_round (rgb_b currentColor)) ++ ")")%string.

(** [n.toString(16)] of an integer-valued number. *)
Definition toString16 (n : Z) : string :=
  HexadecimalString.NilZero.string_of_int (Z.to_hex_int n).

(** [s.padStart(len, '0')]. *)
Definition padStart0 (len : nat) (s : string) : string :=
  if Nat.leb len (String.length s) then s
  else (zeros (len - String.length s) ++ s)%string.

(** The "HEX" export text. *)
Definition hexExport (currentColor : RGBColor) : string :=
  ("#" ++ padStart0 2 (toString16 (Math_round (rgb_r currentColor)))
     ++ padStart0 2 (toString16 (Math_round (rgb_g currentColor)))
     ++ padStart0 2 (toString16 (Math_round (rgb_b currentColor))))%string.

(** ** Vocabulary of the further statements *)

(** [v] brought into [lo, hi]. *)
Definition clamp_to (lo hi v : R) : R :=
  if Rlt_dec v lo then lo else if Rlt_dec hi v then hi else v.

(** A chromaticity within [tol] of a polygon point. *)
Definition chroma_near (tol : R) (c : xyColor) (p : xyPoint) : Prop :=
  within tol (xy_x c) (pt_x p) /\ within tol (xy_y c) (pt_y p).

(** The i-th point of a polygon. *)
Definition vertex (poly : list xyPoint) (i : nat) : xyPoint :=
  nth i poly (mkPoint 0 0).

(** Two hexadecimal digits read back as a number. *)
Definition hex_value (s : string) : option Z :=
  option_map Z.of_hex_int (HexadecimalString.NilZero.int_of_string s).

(** ** The same code on binary64 numbers *)

Module Binary64.

Import PrimFloat.
#[local] Set Warnings "-inexact-float".
#[local] Open Scope float_scope.

Record XYZColor := mkXYZ { xyz_x : float; xyz_y : float; xyz_z : float }.
Record xyColor := mkxyY { xy_x : float; xy_y : float; xy_Y : float }.
Record LABColor := mkLAB { lab_l : float; lab_a : float; lab_b : float }.
Record OKLCHColor := mkOKLCH { oklch_l : float; oklch_c : float; oklch_h : float }.

Definition XYZToxyY (xyz : XYZColor) : xyColor :=
  let sum := xyz_x xyz + xyz_y xyz + xyz_z xyz in
  if sum =? 0 then mkxyY 0 0 0
  else mkxyY (xyz_x xyz / sum) (xyz_y xyz / sum) (xyz_y xyz).

(** [Math.PI], the double nearest to pi. *)
Definition Math_PI : float := 3.141592653589793.

(** [LABToOKLCH].  [Math.atan2] is not among the kernel's operations on
    floats, so its value for (lab.b, lab.a) is the argument [angle]; the
    rest is the source's arithmetic. *)
Definition LABToOKLCH (angle : float) (lab : LABColor) : OKLCHColor :=
  let l := lab_l lab / 100 in
  let c := sqrt (lab_a lab * lab_a lab + lab_b lab * lab_b lab) / 100 in
  let h := angle * 180 / Math_PI in
  mkOKLCH l c (if h <? 0 then h + 360 else h).

End Binary64.

(** * Properties *)

(** ** Reflection of the comparisons *)

Lemma geb_true (a b : R) : (a >=? b) = true <-> a >= b.
Proof. unfold geb; destruct (Rge_dec a b); split; intros; auto; discriminate || contradiction. Qed.

Lemma leb_true (a b : R) : (a <=? b) = true <-> a <= b.
Proof. unfold leb; destruct (Rle_dec a b); split; intros; auto; discriminate || contradiction. Qed.

Lemma eqb_refl (a : R) : (a === a) = true.
Proof. unfold eqb; destruct (Req_dec_T a a); congruence. Qed.

Lemma eqb_neq (a b : R) : a <> b -> (a === b) = false.
Proof. intros H; unfold eqb; destruct (Req_dec_T a b); congruence. Qed.

Lemma within_bounds (tol a b : R) : within tol a b <-> - tol <= a - b <= tol.
Proof.
  unfold within; split; intros H.
  - pose proof (Rle_abs (a - b)) as H1.
    pose proof (Rle_abs (- (a - b))) as H2.
    rewrite Rabs_Ropp in H2. lra.
  - now apply Rabs_le.
Qed.

Lemma within_refl (tol a : R) : 0 <= tol -> within tol a a.
Proof. intros H. apply within_bounds. lra. Qed.

(** ** Chromaticity *)

(** C3. [XYZToxyY] of the zero vector is {x:0, y:0, Y:0}, and [xyYToXYZ] of
    any input whose chromaticity y is 0 is {x:0, y:0, z:0}: both are
    ordinary return values of total functions. *)
Theorem degenerate_inputs_return_zero :
  XYZToxyY (mkXYZ 0 0 0) = mkxyY 0 0 0 /\
  (forall x Y : R, xyYToXYZ (mkxyY x 0 Y) = mkXYZ 0 0 0).
Proof.
  split.
  - unfold XYZToxyY; simpl.
    replace (0 + 0 + 0) with 0 by lra.
    now rewrite eqb_refl.
  - intros x Y. unfold xyYToXYZ; simpl. now rewrite eqb_refl.
Qed.

(** Over the reals x + y cannot pass 1.  In binary64 the two quotients and
    their sum are rounded: at {48.1635, 22.671, 0}, three non-negative
    values with a positive sum, the code returns x and y whose sum is the
    double just above 1, against C10 as it is worded. *)
Section SumAboveOne.

Import PrimFloat.
#[local] Set Warnings "-inexact-float".
#[local] Open Scope float_scope.

Lemma binary64_x_plus_y_above_1 :
  (0 <=? 48.1635) = true /\ (0 <=? 22.671) = true /\ (0 <=? 0) = true /\
  (0 <? 48.1635 + 22.671 + 0) = true /\
  (1 <? Binary64.xy_x (Binary64.XYZToxyY (Binary64.mkXYZ 48.1635 22.671 0))
        + Binary64.xy_y (Binary64.XYZToxyY (Binary64.mkXYZ 48.1635 22.671 0)))
    = true.
Proof. vm_compute. repeat split. Qed.

End SumAboveOne.

(** C10 (amended). For non-negative tristimulus values with a positive
    sum, the chromaticity coordinates returned by [XYZToxyY] lie in [0,1],
    their sum is at most 1 + 1e-9, and the luminance field is the input's
    y unchanged. *)
Theorem XYZToxyY_chromaticity_range (xyz : XYZColor) :
  0 <= xyz_x xyz -> 0 <= xyz_y xyz -> 0 <= xyz_z xyz ->
  0 < xyz_x xyz + xyz_y xyz + xyz_z xyz ->
  0 <= xy_x (XYZToxyY xyz) <= 1 /\
  0 <= xy_y (XYZToxyY xyz) <= 1 /\
  xy_x (XYZToxyY xyz) + xy_y (XYZToxyY xyz) <= 1 + 1e-9 /\
  xy_Y (XYZToxyY xyz) = xyz_y xyz.
Proof.
  destruct xyz as [X Y Z]; simpl; intros HX HY HZ Hs.
  unfold XYZToxyY; simpl.
  rewrite eqb_neq by lra; simpl.
  set (s := X + Y + Z) in *.
  assert (Hi : 0 < / s) by now apply Rinv_0_lt_compat.
  assert (H1 : s * / s = 1) by (apply Rinv_r; lra).
  assert (HXs : X / s = X * / s) by reflexivity.
  assert (HYs : Y / s = Y * / s) by reflexivity.
  rewrite HXs, HYs.
  assert (E : X * / s + Y * / s + Z * / s = 1) by (rewrite <- H1; unfold s; ring).
  assert (0 <= X * / s) by (apply Rmult_le_pos; lra).
  assert (0 <= Y * / s) by (apply Rmult_le_pos; lra).
  assert (0 <= Z * / s) by (apply Rmult_le_pos; lra).
  repeat split; lra.
Qed.

Lemma XYZToxyY_chromaticity_range_witness :
  0 <= xy_x (XYZToxyY (mkXYZ 1 2 1)) <= 1 /\
  0 <= xy_y (XYZToxyY (mkXYZ 1 2 1)) <= 1 /\
  xy_x (XYZToxyY (mkXYZ 1 2 1)) + xy_y (XYZToxyY (mkXYZ 1 2 1)) <= 1 + 1e-9 /\
  xy_Y (XYZToxyY (mkXYZ 1 2 1)) = xyz_y (mkXYZ 1 2 1).
Proof. apply (XYZToxyY_chromaticity_range (mkXYZ 1 2 1)); simpl; lra. Defined.






(** ** Gamut test *)

(** C7. [isInGamut] answers true exactly when the three channels lie in
    [0,255]; it takes no colour space.  {300,0,0} is out, {0,0,0} is in. *)
Theorem isInGamut_iff_display_range :
  (forall rgb : RGBColor, isInGamut rgb = true <-> in_display_range rgb) /\
  isInGamut (mkRGB 300 0 0) = false /\
  isInGamut (mkRGB 0 0 0) = true.
Proof.
  assert (G : forall rgb : RGBColor, isInGamut rgb = true <-> in_display_range rgb).
  { intros [r g b]. unfold isInGamut, in_display_range; simpl.
    rewrite !Bool.andb_true_iff, !geb_true, !leb_true.
    intuition lra. }
  split; [exact G|]. split.
  - destruct (isInGamut (mkRGB 300 0 0)) eqn:E; [|reflexivity].
    apply G in E. unfold in_display_range in E; simpl in E. lra.
  - apply G. unfold in_display_range; simpl. lra.
Qed.

(** ** Matrix round trip *)

(** Both matrix products written out as arithmetic on the channels. *)
Ltac matrix_products :=
  unfold XYZToRGB, RGBToXYZ, at_; simpl.

(** The claim of C1 at the specification's tolerance 0.01 fails already in
    the default space: sRGB yellow comes back with a green channel that is
    off by more than 0.015. *)
Lemma sRGB_yellow_off_by_0015 :
  in_display_range (mkRGB 255 255 0) /\ matrix_space sRGB /\
  rgb_g (XYZToRGB (RGBToXYZ (mkRGB 255 255 0) sRGB) sRGB) - 255 > 0.015 /\
  ~ rgb_close 0.01 (XYZToRGB (RGBToXYZ (mkRGB 255 255 0) sRGB) sRGB)
      (mkRGB 255 255 0).
Proof.
  split; [unfold in_display_range; simpl; lra|].
  split; [now left|].
  assert (E : rgb_g (XYZToRGB (RGBToXYZ (mkRGB 255 255 0) sRGB) sRGB) - 255 > 0.015).
  { matrix_products. lra. }
  split; [exact E|].
  intros (_ & Hg & _). apply within_bounds in Hg.
  change (rgb_g (mkRGB 255 255 0)) with 255 in Hg. lra.
Qed.

(** The P3 bound is not slack either: magenta loses 0.068 on red. *)
Lemma P3_magenta_off_by_0068 :
  255 - rgb_r (XYZToRGB (RGBToXYZ (mkRGB 255 0 255) P3) P3) > 0.068.
Proof. matrix_products. lra. Qed.

(** C1 (amended). For channels in [0,255], RGB -> XYZ -> RGB in one space
    reproduces every channel within 0.016 in sRGB, 0.069 in P3 and 0.032 in
    Rec2020, hence within 0.07 in each of them. *)
Theorem rgb_roundtrip_within_tolerance (rgb : RGBColor) (cs : ColorSpace) :
  in_display_range rgb -> matrix_space cs ->
  rgb_close (roundtrip_tolerance cs) (XYZToRGB (RGBToXYZ rgb cs) cs) rgb /\
  rgb_close 0.07 (XYZToRGB (RGBToXYZ rgb cs) cs) rgb.
Proof.
  destruct rgb as [r g b]. unfold in_display_range; simpl.
  intros (Hr & Hg & Hb) Hcs.
  unfold rgb_close.
  destruct Hcs as [-> | [-> | ->]];
    unfold roundtrip_tolerance; matrix_products;
    repeat split; apply within_bounds; lra.
Qed.

Lemma rgb_roundtrip_within_tolerance_witness :
  rgb_close (roundtrip_tolerance P3)
    (XYZToRGB (RGBToXYZ (mkRGB 255 0 255) P3) P3) (mkRGB 255 0 255) /\
  rgb_close 0.07
    (XYZToRGB (RGBToXYZ (mkRGB 255 0 255) P3) P3) (mkRGB 255 0 255).
Proof.
  apply (rgb_roundtrip_within_tolerance (mkRGB 255 0 255) P3).
  - unfold in_display_range; simpl; lra.
  - right; left; reflexivity.
Defined.

(** ** [Math.pow] on the exponents the source uses *)

Lemma Int_part_IZR (k : Z) : Int_part (IZR k) = k.
Proof. symmetry. apply Int_part_spec. lra. Qed.

Lemma Math_pow_integer (base : R) (k : Z) :
  Math_pow base (IZR k) = powerRZ base k.
Proof.
  unfold Math_pow. rewrite Int_part_IZR.
  destruct (Req_dec_T (IZR k) (IZR k)); congruence.
Qed.

Lemma Math_pow_3 (base : R) : Math_pow base 3 = base ^ 3.
Proof. now rewrite Math_pow_integer. Qed.

Lemma Math_pow_2 (base : R) : Math_pow base 2 = base ^ 2.
Proof. now rewrite Math_pow_integer. Qed.

(** An exponent strictly between two consecutive integers is fractional. *)
Lemma fractional_exponent (e : R) (k : Z) :
  IZR k < e < IZR k + 1 -> e <> IZR (Int_part e).
Proof.
  intros H. assert (E : k = Int_part e) by (apply Int_part_spec; lra).
  rewrite <- E. lra.
Qed.

Lemma Math_pow_fractional (base e : R) (k : Z) :
  0 < base -> IZR k < e < IZR k + 1 -> Math_pow base e = Rpower base e.
Proof.
  intros Hb He. unfold Math_pow.
  destruct (Req_dec_T e (IZR (Int_part e))) as [E|_].
  - exfalso. now apply (fractional_exponent e k).
  - destruct (Rlt_dec 0 base); [reflexivity | contradiction].
Qed.

Lemma Rpower_base_1 (e : R) : Rpower 1 e = 1.
Proof. unfold Rpower. now rewrite ln_1, Rmult_0_r, exp_0. Qed.

Lemma Rpower_pos (b e : R) : 0 < Rpower b e.
Proof. unfold Rpower. apply exp_pos. Qed.

(** ** Colour temperature *)

(** C5. Away from y = 0.1858, [getColorTemperature] is McCamy's cubic in
    n = (x - 0.3320) / (0.1858 - y), the quotient of the two differences;
    the formula is the same however close y is to 0.1858. *)
Theorem getColorTemperature_McCamy (x y : R) :
  y <> 0.1858 ->
  let n := (x - 0.3320) / (0.1858 - y) in
  n * (0.1858 - y) = x - 0.3320 /\
  getColorTemperature x y = 449 * n ^ 3 + 3525 * n ^ 2 + 6823.3 * n + 5520.33.
Proof.
  intros Hy n. split.
  - unfold n. field. lra.
  - unfold getColorTemperature. fold n.
    now rewrite Math_pow_3, Math_pow_2.
Qed.

Lemma getColorTemperature_McCamy_witness :
  let n := (0.3127 - 0.3320) / (0.1858 - 0.3290) in
  n * (0.1858 - 0.3290) = 0.3127 - 0.3320 /\
  getColorTemperature 0.3127 0.3290 =
    449 * n ^ 3 + 3525 * n ^ 2 + 6823.3 * n + 5520.33.
Proof. apply (getColorTemperature_McCamy 0.3127 0.3290); lra. Defined.

(** Nothing tames the value next to the pole: one millionth below
    y = 0.1858 the estimate is beyond 10^11 kelvin. *)
Lemma getColorTemperature_next_to_pole :
  getColorTemperature 0.333 0.185799 > 1e11.
Proof.
  unfold getColorTemperature. rewrite Math_pow_3, Math_pow_2.
  replace ((0.333 - 0.3320) / (0.1858 - 0.185799)) with 1000 by lra.
  lra.
Qed.

(** ** LAB *)

Lemma labF_1 : labF 1 = 1.
Proof.
  unfold labF, gtb. destruct (Rgt_dec 1 0.008856) as [_|H]; [|lra].
  rewrite (Math_pow_fractional 1 (1 / 3) 0) by lra.
  apply Rpower_base_1.
Qed.

(** C8. The D65 white point maps to l = 100, a = 0, b = 0 (the three
    ratios to the reference white are 1, and f(1) = 1). *)
Theorem XYZToLAB_D65_white :
  XYZToLAB (mkXYZ 0.95047 1 1.08883) = mkLAB 100 0 0 /\
  within 1e-9 (lab_l (XYZToLAB (mkXYZ 0.95047 1 1.08883))) 100 /\
  within 1e-9 (lab_a (XYZToLAB (mkXYZ 0.95047 1 1.08883))) 0 /\
  within 1e-9 (lab_b (XYZToLAB (mkXYZ 0.95047 1 1.08883))) 0.
Proof.
  assert (E : XYZToLAB (mkXYZ 0.95047 1 1.08883) = mkLAB 100 0 0).
  { unfold XYZToLAB; simpl.
    replace (0.95047 / 0.95047) with 1 by lra.
    replace (1 / 1.00000) with 1 by lra.
    replace (1.08883 / 1.08883) with 1 by lra.
    rewrite labF_1. f_equal; lra. }
  rewrite E; simpl. repeat split; apply within_refl; lra.
Qed.

(** ** Gamma pipeline *)

(** Comparing through integer powers: the tool for bounding the 2.4-th
    root by rational numbers. *)

Lemma pow_lt_compat (x y : R) (n : nat) :
  0 <= x < y -> x ^ S n < y ^ S n.
Proof.
  intros [H0 Hxy]. induction n as [|n IH].
  - simpl. lra.
  - change (x * x ^ S n < y * y ^ S n).
    assert (0 <= x ^ S n) by (apply pow_le; lra).
    apply Rle_lt_trans with (x * y ^ S n).
    + apply Rmult_le_compat_l; lra.
    + apply Rmult_lt_compat_r; lra.
Qed.

Lemma root_le (p u : R) (n : nat) :
  0 <= u -> p ^ S n <= u ^ S n -> p <= u.
Proof.
  intros Hu H. destruct (Rle_lt_dec p u) as [|Hlt]; [assumption|].
  pose proof (pow_lt_compat u p n (conj Hu Hlt)). lra.
Qed.

Lemma root_lt (l p : R) (n : nat) :
  0 <= p -> l ^ S n < p ^ S n -> l < p.
Proof.
  intros Hp H. destruct (Rle_lt_dec p l) as [Hle|]; [|assumption].
  pose proof (pow_incr p l (S n) (conj Hp Hle)). lra.
Qed.

(** x^(1/2.4) = x^(5/12): its twelfth power is the fifth power of x. *)
Lemma Rpower_5_12 (v : R) : 0 < v -> Rpower v (1 / 2.4) ^ 12 = v ^ 5.
Proof.
  intros Hv.
  rewrite <- (Rpower_pow 12) by apply Rpower_pos.
  rewrite Rpower_mult.
  replace (1 / 2.4 * INR 12) with (INR 5) by (simpl; lra).
  now apply Rpower_pow.
Qed.

Lemma Rpower_inverse (v : R) : 0 < v -> Rpower (Rpower v (1 / 2.4)) 2.4 = v.
Proof.
  intros Hv. rewrite Rpower_mult.
  replace (1 / 2.4 * 2.4) with 1 by lra.
  now apply Rpower_1.
Qed.

Lemma gammaCorrect_linear (v : R) : v <= 0.0031308 -> gammaCorrect v = 12.92 * v.
Proof.
  intros H. unfold gammaCorrect, leb.
  destruct (Rle_dec v 0.0031308); [reflexivity | contradiction].
Qed.

Lemma gammaCorrect_power (v : R) :
  0.0031308 < v -> gammaCorrect v = 1.055 * Rpower v (1 / 2.4) - 0.055.
Proof.
  intros H. unfold gammaCorrect, leb.
  destruct (Rle_dec v 0.0031308); [lra|].
  now rewrite (Math_pow_fractional v (1 / 2.4) 0) by lra.
Qed.

Lemma gammaUncorrect_linear (e : R) : e <= 0.04045 -> gammaUncorrect e = e / 12.92.
Proof.
  intros H. unfold gammaUncorrect, leb.
  destruct (Rle_dec e 0.04045); [reflexivity | contradiction].
Qed.

Lemma gammaUncorrect_power (e : R) :
  0.04045 < e -> gammaUncorrect e = Rpower ((e + 0.055) / 1.055) 2.4.
Proof.
  intros H. unfold gammaUncorrect, leb.
  destruct (Rle_dec e 0.04045); [lra|].
  rewrite (Math_pow_fractional _ 2.4 2); [reflexivity| |lra].
  apply Rdiv_lt_0_compat; lra.
Qed.

(** Exact inversion on the linear segment. *)
Lemma gamma_low_exact (v : R) :
  v <= 0.0031308 -> gammaUncorrect (gammaCorrect v) = v.
Proof.
  intros H. rewrite gammaCorrect_linear by assumption.
  rewrite gammaUncorrect_linear by lra. lra.
Qed.

(** Exact inversion where the encoded value is past the decoder's threshold. *)
Lemma gamma_high_exact (v : R) :
  0.0031308 < v -> 0.04045 < gammaCorrect v ->
  gammaUncorrect (gammaCorrect v) = v.
Proof.
  intros Hv He. rewrite gammaUncorrect_power by assumption.
  rewrite gammaCorrect_power by assumption.
  replace ((1.055 * Rpower v (1 / 2.4) - 0.055 + 0.055) / 1.055)
    with (Rpower v (1 / 2.4)) by lra.
  apply Rpower_inverse. lra.
Qed.

(** From 0.00313081 on, the encoded value is past 0.04045. *)
Lemma gammaCorrect_past_threshold (v : R) :
  0.00313081 <= v -> 0.04045 < gammaCorrect v.
Proof.
  intros Hv. rewrite gammaCorrect_power by lra.
  assert (Hp : 0.09545 / 1.055 < Rpower v (1 / 2.4)).
  { apply (root_lt _ _ 11); [left; apply Rpower_pos|].
    rewrite Rpower_5_12 by lra.
    apply Rlt_le_trans with (0.00313081 ^ 5); [lra|].
    apply pow_incr; lra. }
  lra.
Qed.

(** (1 + x)^12 and (t + d)^5 against their linear parts. *)
Lemma pow12_linear_upper (x : R) :
  0 <= x <= 1e-5 -> (1 + x) ^ 12 <= 1 + 12.002 * x.
Proof.
  intros [H0 H1].
  assert (Hxx : x * x <= 1e-5 * x) by nra.
  assert (H2 : (1 + x) ^ 2 <= 1 + 2.0001 * x) by nra.
  assert (P2 : 0 <= (1 + x) ^ 2) by (apply pow_le; lra).
  assert (H4 : (1 + x) ^ 4 <= 1 + 4.0003 * x).
  { replace ((1 + x) ^ 4) with ((1 + x) ^ 2 * (1 + x) ^ 2) by ring.
    apply Rle_trans with ((1 + 2.0001 * x) * (1 + 2.0001 * x)); [|nra].
    apply Rmult_le_compat; lra. }
  assert (P4 : 0 <= (1 + x) ^ 4) by (apply pow_le; lra).
  assert (H8 : (1 + x) ^ 8 <= 1 + 8.0008 * x).
  { replace ((1 + x) ^ 8) with ((1 + x) ^ 4 * (1 + x) ^ 4) by ring.
    apply Rle_trans with ((1 + 4.0003 * x) * (1 + 4.0003 * x)); [|nra].
    apply Rmult_le_compat; lra. }
  assert (P8 : 0 <= (1 + x) ^ 8) by (apply pow_le; lra).
  replace ((1 + x) ^ 12) with ((1 + x) ^ 8 * (1 + x) ^ 4) by ring.
  apply Rle_trans with ((1 + 8.0008 * x) * (1 + 4.0003 * x)); [|nra].
  apply Rmult_le_compat; lra.
Qed.

Lemma pow5_linear_lower (t d : R) :
  0 <= t -> 0 <= d -> t ^ 5 + 5 * t ^ 4 * d <= (t + d) ^ 5.
Proof.
  intros Ht Hd.
  assert (0 <= t ^ 3 * d ^ 2) by (apply Rmult_le_pos; apply pow_le; lra).
  assert (0 <= t ^ 2 * d ^ 3) by (apply Rmult_le_pos; apply pow_le; lra).
  assert (0 <= t * d ^ 4) by (apply Rmult_le_pos; [|apply pow_le]; lra).
  assert (0 <= d ^ 5) by (apply pow_le; lra).
  replace ((t + d) ^ 5)
    with (t ^ 5 + 5 * t ^ 4 * d + 10 * (t ^ 3 * d ^ 2) + 10 * (t ^ 2 * d ^ 3)
          + 5 * (t * d ^ 4) + d ^ 5) by ring.
  lra.
Qed.

(** Just above 0.0031308 the root grows at least at the rate 133 per unit
    (its slope there is 5/12 over 0.0031308, a little over 133). *)
Lemma root_lower_line (v : R) :
  0.0031308 <= v <= 0.003130808 ->
  0.0904738459 * (1 + 133 * (v - 0.0031308)) <= Rpower v (1 / 2.4).
Proof.
  intros [Hlo Hhi]. set (d := v - 0.0031308).
  assert (Hd : 0 <= d <= 8e-9) by (unfold d; lra).
  apply (root_le _ _ 11); [left; apply Rpower_pos|].
  rewrite Rpower_5_12 by lra.
  replace v with (0.0031308 + d) by (unfold d; ring).
  apply Rle_trans with (0.0031308 ^ 5 + 5 * 0.0031308 ^ 4 * d);
    [|apply pow5_linear_lower; lra].
  rewrite Rpow_mult_distr.
  pose proof (pow12_linear_upper (133 * d) ltac:(lra)) as HB.
  assert (P : 0 <= (1 + 133 * d) ^ 12) by (apply pow_le; lra).
  apply Rle_trans with (0.0031308 ^ 5 * (1 + 12.002 * (133 * d))); [|lra].
  apply Rmult_le_compat; lra.
Qed.

(** The seam: an input just above 0.0031308 whose encoding is still at most
    0.04045 is decoded by the linear segment. *)
Section Seam.

Variable v : R.
Hypothesis above : 0.0031308 < v.
Hypothesis encoded_low : gammaCorrect v <= 0.04045.

Let p := Rpower v (1 / 2.4).

Lemma seam_root_le : p <= 0.09545 / 1.055.
Proof.
  pose proof encoded_low as He.
  rewrite gammaCorrect_power in He by exact above. fold p in He. lra.
Qed.

Lemma seam_root_pow : p ^ 12 = v ^ 5.
Proof. apply Rpower_5_12. lra. Qed.

(** The seam is shorter than 7.3e-9. *)
Lemma seam_end : v <= 0.00313080729.
Proof.
  apply (root_le _ _ 4); [lra|]. rewrite <- seam_root_pow.
  apply Rle_trans with ((0.09545 / 1.055) ^ 12); [|lra].
  apply pow_incr. split; [left; apply Rpower_pos | apply seam_root_le].
Qed.

Lemma seam_decoded : gammaUncorrect (gammaCorrect v) = (1.055 * p - 0.055) / 12.92.
Proof.
  rewrite gammaUncorrect_linear by exact encoded_low.
  now rewrite gammaCorrect_power by exact above.
Qed.

Lemma gamma_seam_bound :
  - (2.4e-9) <= gammaUncorrect (gammaCorrect v) - v <= 2.4e-9.
Proof.
  rewrite seam_decoded. pose proof seam_end as HV. split.
  - pose proof (root_lower_line v ltac:(lra)) as HL. fold p in HL. lra.
  - destruct (Rle_lt_dec v 0.0031308026) as [Ha|Ha].
    + assert (p <= 0.09047388); [|lra].
      apply (root_le _ _ 11); [lra|]. rewrite seam_root_pow.
      apply Rle_trans with (0.0031308026 ^ 5); [|lra].
      apply pow_incr; lra.
    + pose proof seam_root_le. lra.
Qed.

End Seam.

(** The claim of C4 at tolerance 1e-9 fails just above the threshold:
    0.003130804 is encoded by the power segment to a value below 0.04045,
    which the decoder divides by 12.92. *)
Lemma gamma_seam_exceeds_1e9 :
  0 <= 0.003130804 <= 1 /\
  ~ within 1e-9 (gammaUncorrect (gammaCorrect 0.003130804)) 0.003130804.
Proof.
  split; [lra|]. intros H. apply within_bounds in H.
  rewrite gammaCorrect_power in H by lra.
  set (p := Rpower 0.003130804 (1 / 2.4)) in *.
  assert (Hp0 : 0 < p) by apply Rpower_pos.
  assert (Hp12 : p ^ 12 = 0.003130804 ^ 5) by (apply Rpower_5_12; lra).
  assert (HU : p <= 0.0904739).
  { apply (root_le _ _ 11); [lra|]. rewrite Hp12. lra. }
  rewrite gammaUncorrect_linear in H by lra. lra.
Qed.

(** C4 (amended). For v in [0,1], decoding the encoding of v gives v back
    within 2.4e-9; it gives v exactly unless v lies in the seam between
    0.0031308 and 0.00313081. *)
Theorem gamma_roundtrip (v : R) :
  0 <= v <= 1 ->
  within 2.4e-9 (gammaUncorrect (gammaCorrect v)) v /\
  (v <= 0.0031308 \/ 0.00313081 <= v -> gammaUncorrect (gammaCorrect v) = v).
Proof.
  intros _. split.
  - destruct (Rle_lt_dec v 0.0031308) as [Hlo|Hhi].
    + rewrite gamma_low_exact by assumption. apply within_refl; lra.
    + destruct (Rle_lt_dec (gammaCorrect v) 0.04045) as [He|He].
      * apply within_bounds. now apply gamma_seam_bound.
      * rewrite gamma_high_exact by assumption. apply within_refl; lra.
  - intros [Hlo|Hhi].
    + now apply gamma_low_exact.
    + apply gamma_high_exact; [lra|].
      now apply gammaCorrect_past_threshold.
Qed.

Lemma gamma_roundtrip_witness :
  within 2.4e-9 (gammaUncorrect (gammaCorrect 0.5)) 0.5 /\
  (0.5 <= 0.0031308 \/ 0.00313081 <= 0.5 ->
   gammaUncorrect (gammaCorrect 0.5) = 0.5).
Proof. apply (gamma_roundtrip 0.5); lra. Defined.

(** ** LAB -> OKLCH *)



(** Over the reals the hue stays below 360.  In binary64 a negative angle
    that is small enough is lost in the sum h + 360: for a = 1 and
    b = -1e-20 the angle [Math.atan2] returns is -1e-20 (the arc tangent of
    so small a t is t itself to the last bit), and the code answers a hue
    of exactly 360, against C9 as it is worded. *)
Section HueReaches360.

Import PrimFloat.
#[local] Set Warnings "-inexact-float".
#[local] Open Scope float_scope.


End HueReaches360.



(** ** CSS serialization *)

Lemma clamp255_eq (v : R) : Math_max 0 (Math_min 255 v) = clamp255 v.
Proof.
  unfold Math_max, Math_min, Rmax, Rmin, clamp255.
  destruct (Rle_dec 255 v), (Rlt_dec v 0), (Rlt_dec 255 v);
    try lra; destruct (Rle_dec 0 255); try lra;
    destruct (Rle_dec 0 v); lra.
Qed.

Lemma clamp255_range (v : R) : 0 <= clamp255 v <= 255.
Proof.
  unfold clamp255. destruct (Rlt_dec v 0); [lra|].
  destruct (Rlt_dec 255 v); lra.
Qed.

Lemma Math_round_nearest (v : R) : nearest_integer v (Math_round v).
Proof.
  unfold nearest_integer, Math_round.
  destruct (base_Int_part (v + / 2)). lra.
Qed.

Lemma channel_clamped_rounded (v : R) :
  clamped_rounded v (Math_round (Math_max 0 (Math_min 255 v))).
Proof.
  rewrite clamp255_eq. pose proof (clamp255_range v) as Hc.
  pose proof (Math_round_nearest (clamp255 v)) as Hn.
  split; [|exact Hn]. unfold nearest_integer in Hn.
  split.
  - assert (IZR (-1) < IZR (Math_round (clamp255 v))) by lra.
    apply lt_IZR in H. lia.
  - assert (IZR (Math_round (clamp255 v)) < IZR 256) by lra.
    apply lt_IZR in H. lia.
Qed.

(** An integer channel in range is left alone. *)
Lemma channel_of_integer (k : Z) :
  (0 <= k <= 255)%Z -> Math_round (Math_max 0 (Math_min 255 (IZR k))) = k.
Proof.
  intros [H0 H255]. apply IZR_le in H0, H255.
  rewrite clamp255_eq. unfold clamp255.
  destruct (Rlt_dec (IZR k) 0); [lra|].
  destruct (Rlt_dec 255 (IZR k)); [lra|].
  unfold Math_round. symmetry. apply Int_part_spec. lra.
Qed.

(** The integer that [toFixed(4)] prints for c / 255. *)
Lemma Int_part_quotient (c : Z) :
  Int_part (IZR c / 255 * 10 ^ 4 + / 2) = quotient_255_e4 c.
Proof.
  symmetry. apply Int_part_spec. unfold quotient_255_e4.
  set (a := (20000 * c + 255)%Z).
  pose proof (Z.mul_div_le a 510 ltac:(lia)) as Hle.
  pose proof (Z.mul_succ_div_gt a 510 ltac:(lia)) as Hgt.
  apply IZR_le in Hle. apply IZR_lt in Hgt.
  rewrite mult_IZR in Hle. rewrite mult_IZR, succ_IZR in Hgt.
  unfold a in Hle, Hgt. rewrite plus_IZR, mult_IZR in Hle, Hgt.
  unfold a. simpl pow. lra.
Qed.

Lemma quotient_nearest (c : Z) :
  nearest_integer (IZR c / 255 * 10 ^ 4) (quotient_255_e4 c).
Proof.
  rewrite <- Int_part_quotient. apply Math_round_nearest.
Qed.

Lemma toFixed_quotient (c : Z) :
  (0 <= c)%Z -> toFixed (IZR c / 255) 4 = fixed_string (quotient_255_e4 c) 4.
Proof.
  intros Hc. apply IZR_le in Hc. unfold toFixed, ltb.
  destruct (Rlt_dec (IZR c / 255) 0) as [H|_]; [lra|].
  now rewrite Int_part_quotient.
Qed.

(** The digit steps agree with [decimal4] on 0 .. 10000. *)
Lemma fixed_string_decimal4_table :
  forallb (fun k => String.eqb (fixed_string (Z.of_nat k) 4) (decimal4 (Z.of_nat k)))
    (seq 0 (Z.to_nat 10001)) = true.
Proof. vm_compute. reflexivity. Qed.

Lemma fixed_string_decimal4 (n : Z) :
  (0 <= n <= 10000)%Z -> fixed_string n 4 = decimal4 n.
Proof.
  intros Hn. pose proof fixed_string_decimal4_table as T.
  rewrite forallb_forall in T.
  specialize (T (Z.to_nat n)). rewrite Z2Nat.id in T by lia.
  apply String.eqb_eq, T, in_seq. lia.
Qed.

Lemma quotient_255_e4_range (c : Z) :
  (0 <= c <= 255)%Z -> (0 <= quotient_255_e4 c <= 10000)%Z.
Proof.
  intros Hc. unfold quotient_255_e4. split.
  - apply Z.div_pos; lia.
  - assert ((20000 * c + 255) / 510 < 10001)%Z; [|lia].
    apply Z.div_lt_upper_bound; lia.
Qed.

(** C6. [generateCSSColor] clamps each channel to [0,255] and rounds it to
    the nearest integer; sRGB and the tags without a rule of their own give
    "rgb(r, g, b)", P3 gives "color(display-p3 ...)" with each r/255
    printed to four decimals; the two documented examples. *)
Theorem generateCSSColor_format :
  (forall rgb : RGBColor, exists r g b : Z,
      clamped_rounded (rgb_r rgb) r /\
      clamped_rounded (rgb_g rgb) g /\
      clamped_rounded (rgb_b rgb) b /\
      nearest_integer (IZR r / 255 * 10 ^ 4) (quotient_255_e4 r) /\
      nearest_integer (IZR g / 255 * 10 ^ 4) (quotient_255_e4 g) /\
      nearest_integer (IZR b / 255 * 10 ^ 4) (quotient_255_e4 b) /\
      generateCSSColor rgb sRGB = rgb_text r g b /\
      generateCSSColor rgb XYZ = rgb_text r g b /\
      generateCSSColor rgb LAB = rgb_text r g b /\
      generateCSSColor rgb OKLCH = rgb_text r g b /\
      generateCSSColor rgb P3 = display_p3_text r g b) /\
  generateCSSColor (mkRGB 255 100 100) sRGB = "rgb(255, 100, 100)"%string /\
  generateCSSColor (mkRGB 255 100 100) P3 =
    "color(display-p3 1.0000 0.3922 0.3922)"%string.
Proof.
  split; [|split].
  - intros [vr vg vb]; simpl.
    pose proof (channel_clamped_rounded vr) as Hr.
    pose proof (channel_clamped_rounded vg) as Hg.
    pose proof (channel_clamped_rounded vb) as Hb.
    set (r := Math_round (Math_max 0 (Math_min 255 vr))) in *.
    set (g := Math_round (Math_max 0 (Math_min 255 vg))) in *.
    set (b := Math_round (Math_max 0 (Math_min 255 vb))) in *.
    exists r, g, b.
    repeat (split; [first [assumption | apply quotient_nearest | reflexivity]|]).
    unfold generateCSSColor, display_p3_text; simpl. fold r g b.
    destruct Hr as [Hr _], Hg as [Hg _], Hb as [Hb _].
    rewrite !toFixed_quotient by lia.
    rewrite !fixed_string_decimal4 by (apply quotient_255_e4_range; lia).
    reflexivity.
  - unfold generateCSSColor; simpl.
    rewrite !channel_of_integer by lia. reflexivity.
  - unfold generateCSSColor; simpl.
    rewrite !channel_of_integer by lia.
    rewrite !toFixed_quotient by lia. reflexivity.
Qed.

(** * Further properties of the conversions *)

(** ** RGB -> HSL *)

Lemma gtb_true (a b : R) : (a >? b) = true <-> a > b.
Proof. unfold gtb; destruct (Rgt_dec a b); split; intros; auto; discriminate || contradiction. Qed.

Lemma ltb_true (a b : R) : (a <? b) = true <-> a < b.
Proof. unfold ltb; destruct (Rlt_dec a b); split; intros; auto; discriminate || contradiction. Qed.

Lemma eqb_true (a b : R) : (a === b) = true <-> a = b.
Proof. unfold eqb; destruct (Req_dec_T a b); split; intros; auto; discriminate || contradiction. Qed.

(** The largest of three is one of them and bounds them all. *)
Lemma Math_max3_spec (a b c : R) :
  let m := Math_max3 a b c in
  (m = a \/ m = b \/ m = c) /\ a <= m /\ b <= m /\ c <= m.
Proof.
  unfold Math_max3, Math_max, Rmax.
  destruct (Rle_dec a b); destruct (Rle_dec _ c); simpl; lra.
Qed.

Lemma Math_min3_spec (a b c : R) :
  let m := Math_min3 a b c in
  (m = a \/ m = b \/ m = c) /\ m <= a /\ m <= b /\ m <= c.
Proof.
  unfold Math_min3, Math_min, Rmin.
  destruct (Rle_dec a b); destruct (Rle_dec _ c); simpl; lra.
Qed.

(** A quotient whose numerator is bounded by a positive denominator. *)
Lemma quotient_bounds (n d lo hi : R) :
  0 < d -> lo * d <= n <= hi * d -> lo <= n / d <= hi.
Proof.
  intros Hd [H1 H2].
  assert (Hi : 0 < / d) by now apply Rinv_0_lt_compat.
  assert (E : d * / d = 1) by (apply Rinv_r; lra).
  unfold Rdiv. split.
  - replace lo with (lo * d * / d) by (rewrite Rmult_assoc, E; ring).
    apply Rmult_le_compat_r; lra.
  - replace hi with (hi * d * / d) by (rewrite Rmult_assoc, E; ring).
    apply Rmult_le_compat_r; lra.
Qed.

Lemma quotient_neg (n d : R) : 0 < d -> n < 0 -> n / d < 0.
Proof.
  intros Hd Hn. assert (Hi : 0 < / d) by now apply Rinv_0_lt_compat.
  unfold Rdiv. nra.
Qed.

Section HSL.

Variable rgb : RGBColor.

Let r := rgb_r rgb / 255.
Let g := rgb_g rgb / 255.
Let b := rgb_b rgb / 255.
Let M := Math_max3 r g b.
Let m := Math_min3 r g b.

(** The hue in sixths of a turn, before the division by 6. *)
Let sixths : R :=
  if M === r then (g - b) / (M - m) + (if g <? b then 6 else 0)
  else if M === g then (b - r) / (M - m) + 2
  else if M === b then (r - g) / (M - m) + 4
  else 0.

Lemma RGBToHSL_lightness : hsl_l (RGBToHSL rgb) = (M + m) / 2 * 100.
Proof. reflexivity. Qed.

Lemma RGBToHSL_achromatic :
  M = m -> hsl_h (RGBToHSL rgb) = 0 /\ hsl_s (RGBToHSL rgb) = 0.
Proof.
  intros E. unfold RGBToHSL. fold r g b. fold M m. simpl.
  replace (M - m) with 0 by lra. rewrite eqb_refl. simpl. split; ring.
Qed.

Lemma RGBToHSL_chromatic :
  M <> m ->
  hsl_h (RGBToHSL rgb) = sixths / 6 * 360 /\
  hsl_s (RGBToHSL rgb) =
    (if (M + m) / 2 >? 0.5 then (M - m) / (2 - M - m) else (M - m) / (M + m)) * 100.
Proof.
  intros E. unfold RGBToHSL. fold r g b. fold M m. simpl.
  rewrite (eqb_neq (M - m) 0) by lra. simpl. split; reflexivity.
Qed.

(** Where the hue falls, by the channel that attains the maximum. *)
Lemma sixths_sector :
  m < M ->
  (g <= r /\ b <= r -> 0 <= sixths <= 1 \/ 5 <= sixths < 6) /\
  (r < g /\ b <= g -> 1 <= sixths <= 3) /\
  (r < b /\ g < b -> 3 <= sixths <= 5).
Proof.
  intros Hd.
  destruct (Math_max3_spec r g b) as (HM & Hr & Hg & Hb).
  destruct (Math_min3_spec r g b) as (Hm & Hr' & Hg' & Hb').
  fold M in HM, Hr, Hg, Hb. fold m in Hm, Hr', Hg', Hb'.
  assert (Hpos : 0 < M - m) by lra.
  unfold sixths. unfold eqb.
  destruct (Req_dec_T M r) as [Er|Er]; [|destruct (Req_dec_T M g) as [Eg|Eg]].
  - split; [|split; intros [H _]; exfalso; lra].
    intros _. unfold ltb. destruct (Rlt_dec g b) as [Hlt|Hge].
    + right. pose proof (quotient_bounds (g - b) (M - m) (-1) 0 Hpos ltac:(lra)).
      pose proof (quotient_neg (g - b) (M - m) Hpos ltac:(lra)). lra.
    + left. pose proof (quotient_bounds (g - b) (M - m) 0 1 Hpos ltac:(lra)). lra.
  - split; [intros [H1 H2]; exfalso; lra|].
    split; [|intros [_ H]; exfalso; lra].
    intros _. pose proof (quotient_bounds (b - r) (M - m) (-1) 1 Hpos ltac:(lra)). lra.
  - destruct (Req_dec_T M b) as [Eb|Eb]; [|exfalso; lra].
    split; [intros [H1 H2]; exfalso; lra|].
    split; [intros [H1 H2]; exfalso; lra|].
    intros _. pose proof (quotient_bounds (r - g) (M - m) (-1) 1 Hpos ltac:(lra)). lra.
Qed.

Lemma max_min_order : m <= M.
Proof.
  destruct (Math_max3_spec r g b) as (_ & Hr & _).
  destruct (Math_min3_spec r g b) as (_ & Hr' & _).
  unfold M, m. lra.
Qed.

(** X1. For every RGB record the hue is in [0,360]; it lies within 60
    degrees of red (0 or 360) when red is a largest channel, in [60,180]
    when green is the largest and red is not, in [180,300] when blue alone
    is the largest. *)
Theorem RGBToHSL_hue_sector :
  0 <= hsl_h (RGBToHSL rgb) <= 360 /\
  (rgb_g rgb <= rgb_r rgb /\ rgb_b rgb <= rgb_r rgb ->
   hsl_h (RGBToHSL rgb) <= 60 \/ 300 <= hsl_h (RGBToHSL rgb)) /\
  (rgb_r rgb < rgb_g rgb /\ rgb_b rgb <= rgb_g rgb ->
   60 <= hsl_h (RGBToHSL rgb) <= 180) /\
  (rgb_r rgb < rgb_b rgb /\ rgb_g rgb < rgb_b rgb ->
   180 <= hsl_h (RGBToHSL rgb) <= 300).
Proof.
  pose proof max_min_order as Hle.
  destruct (Math_max3_spec r g b) as (HM & Hr & Hg & Hb).
  destruct (Math_min3_spec r g b) as (Hm & Hr' & Hg' & Hb').
  fold M in HM, Hr, Hg, Hb. fold m in Hm, Hr', Hg', Hb'.
  destruct (Req_dec_T M m) as [E|E].
  - destruct (RGBToHSL_achromatic E) as [-> _].
    assert (r = g /\ g = b) as [Erg Egb] by lra.
    unfold r, g, b in Erg, Egb.
    repeat split; try lra; intros; lra.
  - destruct (RGBToHSL_chromatic E) as [-> _].
    destruct (sixths_sector ltac:(lra)) as (S1 & S2 & S3).
    assert (Hrange : 0 <= sixths < 6).
    { destruct (Rle_dec g r) as [Hgr|Hgr].
      - destruct (Rle_dec b r) as [Hbr|Hbr]; [destruct S1; lra|].
        destruct (Rlt_dec g b); [lra|]. exfalso; lra.
      - destruct (Rle_dec b g) as [Hbg|Hbg]; [lra|]. lra. }
    split; [lra|].
    split; [|split]; intros [H1 H2].
    + assert (P : g <= r /\ b <= r) by (unfold r, g, b; lra).
      destruct (S1 P); [left | right]; lra.
    + assert (P : r < g /\ b <= g) by (unfold r, g, b; lra).
      specialize (S2 P). lra.
    + assert (P : r < b /\ g < b) by (unfold r, g, b; lra).
      specialize (S3 P). lra.
Qed.

End HSL.

Lemma normalised_range (v : R) : 0 <= v <= 255 -> 0 <= v / 255 <= 1.
Proof. intros H. lra. Qed.

(** X2. For channels in [0,255] the saturation and the lightness are
    percentages: both lie in [0,100]. *)
Theorem RGBToHSL_percent_ranges (rgb : RGBColor) :
  in_display_range rgb ->
  0 <= hsl_s (RGBToHSL rgb) <= 100 /\ 0 <= hsl_l (RGBToHSL rgb) <= 100.
Proof.
  intros (Hr & Hg & Hb).
  apply normalised_range in Hr, Hg, Hb.
  set (r := rgb_r rgb / 255) in *.
  set (g := rgb_g rgb / 255) in *.
  set (b := rgb_b rgb / 255) in *.
  destruct (Math_max3_spec r g b) as (HM & HMr & HMg & HMb).
  destruct (Math_min3_spec r g b) as (Hm & Hmr & Hmg & Hmb).
  set (M := Math_max3 r g b) in *.
  set (m := Math_min3 r g b) in *.
  assert (H01 : 0 <= m /\ m <= M /\ M <= 1) by (repeat split; lra).
  split.
  - destruct (Req_dec_T M m) as [E|E].
    + destruct (RGBToHSL_achromatic rgb E) as [_ ->]. lra.
    + destruct (RGBToHSL_chromatic rgb E) as [_ ->]. fold r g b. fold M m.
      unfold gtb. destruct (Rgt_dec ((M + m) / 2) 0.5) as [Hl|Hl].
      * pose proof (quotient_bounds (M - m) (2 - M - m) 0 1 ltac:(lra) ltac:(lra)).
        lra.
      * pose proof (quotient_bounds (M - m) (M + m) 0 1 ltac:(lra) ltac:(lra)).
        lra.
  - rewrite RGBToHSL_lightness. fold r g b. fold M m. lra.
Qed.

Lemma RGBToHSL_percent_ranges_witness :
  0 <= hsl_s (RGBToHSL (mkRGB 255 100 100)) <= 100 /\
  0 <= hsl_l (RGBToHSL (mkRGB 255 100 100)) <= 100.
Proof.
  apply (RGBToHSL_percent_ranges (mkRGB 255 100 100)).
  unfold in_display_range; simpl; lra.
Defined.

Lemma Math_max3_same (v : R) : Math_max3 v v v = v.
Proof. destruct (Math_max3_spec v v v) as (H & _). simpl in H. lra. Qed.

Lemma Math_min3_same (v : R) : Math_min3 v v v = v.
Proof. destruct (Math_min3_spec v v v) as (H & _). simpl in H. lra. Qed.

(** X3. A grey (three equal channels, whatever their value) has hue 0,
    saturation 0 and lightness v / 255 in percent; black and white are
    {0, 0, 0} and {0, 0, 100}. *)
Theorem RGBToHSL_grey (v : R) :
  RGBToHSL (mkRGB v v v) = mkHSL 0 0 (v / 255 * 100).
Proof.
  unfold RGBToHSL; simpl.
  rewrite Math_max3_same, Math_min3_same.
  replace (v / 255 - v / 255) with 0 by lra.
  rewrite eqb_refl; simpl. f_equal; lra.
Qed.

Lemma Math_max3_shift (a b c k : R) :
  Math_max3 (a + k) (b + k) (c + k) = Math_max3 a b c + k.
Proof.
  unfold Math_max3, Math_max, Rmax.
  destruct (Rle_dec (a + k) (b + k)), (Rle_dec a b); try lra;
    destruct (Rle_dec _ (c + k)), (Rle_dec _ c); lra.
Qed.

Lemma Math_min3_shift (a b c k : R) :
  Math_min3 (a + k) (b + k) (c + k) = Math_min3 a b c + k.
Proof.
  unfold Math_min3, Math_min, Rmin.
  destruct (Rle_dec (a + k) (b + k)), (Rle_dec a b); try lra;
    destruct (Rle_dec _ (c + k)), (Rle_dec _ c); lra.
Qed.

Lemma eqb_shift (a b k : R) : (a + k === b + k) = (a === b).
Proof. unfold eqb. destruct (Req_dec_T (a + k) (b + k)), (Req_dec_T a b); auto; lra. Qed.

Lemma ltb_shift (a b k : R) : (a + k <? b + k) = (a <? b).
Proof. unfold ltb. destruct (Rlt_dec (a + k) (b + k)), (Rlt_dec a b); auto; lra. Qed.

(** Over the reals a common shift of the channels leaves the hue alone. *)
Lemma hue_of_shifted (rgb : RGBColor) (c : R) :
  hsl_h (RGBToHSL (mkRGB (rgb_r rgb + c) (rgb_g rgb + c) (rgb_b rgb + c))) =
  hsl_h (RGBToHSL rgb).
Proof.
  unfold RGBToHSL; simpl.
  replace ((rgb_r rgb + c) / 255) with (rgb_r rgb / 255 + c / 255) by lra.
  replace ((rgb_g rgb + c) / 255) with (rgb_g rgb / 255 + c / 255) by lra.
  replace ((rgb_b rgb + c) / 255) with (rgb_b rgb / 255 + c / 255) by lra.
  set (r := rgb_r rgb / 255). set (g := rgb_g rgb / 255).
  set (b := rgb_b rgb / 255). set (k := c / 255).
  rewrite Math_max3_shift, Math_min3_shift.
  set (M := Math_max3 r g b). set (m := Math_min3 r g b).
  replace (M + k - (m + k)) with (M - m) by lra.
  rewrite !eqb_shift, ltb_shift.
  replace (g + k - (b + k)) with (g - b) by lra.
  replace (b + k - (r + k)) with (b - r) by lra.
  replace (r + k - (g + k)) with (r - g) by lra.
  destruct (negb (M - m === 0)); reflexivity.
Qed.

(** X4. For whole-number channels in 0..255, adding the same whole number
    to the three of them (the result still in 0..255) moves the hue by at
    most 1e-9 degrees. *)
Theorem RGBToHSL_hue_shift_invariant (r g b c : Z) :
  (0 <= r <= 255)%Z -> (0 <= g <= 255)%Z -> (0 <= b <= 255)%Z ->
  (0 <= r + c <= 255)%Z -> (0 <= g + c <= 255)%Z -> (0 <= b + c <= 255)%Z ->
  within 1e-9
    (hsl_h (RGBToHSL (mkRGB (IZR (r + c)) (IZR (g + c)) (IZR (b + c)))))
    (hsl_h (RGBToHSL (mkRGB (IZR r) (IZR g) (IZR b)))).
Proof.
  intros _ _ _ _ _ _. rewrite !plus_IZR.
  pose proof (hue_of_shifted (mkRGB (IZR r) (IZR g) (IZR b)) (IZR c)) as E.
  cbn [rgb_r rgb_g rgb_b] in E. rewrite E.
  apply within_refl. lra.
Qed.

Lemma RGBToHSL_hue_shift_invariant_witness :
  within 1e-9
    (hsl_h (RGBToHSL (mkRGB (IZR (61 + 5)) (IZR (116 + 5)) (IZR (121 + 5)))))
    (hsl_h (RGBToHSL (mkRGB (IZR 61) (IZR 116) (IZR 121)))).
Proof. apply (RGBToHSL_hue_shift_invariant 61 116 121 5); lia. Defined.

Lemma XYZToxyY_scaled (X Y Z k : R) :
  k <> 0 ->
  XYZToxyY (mkXYZ (k * X) (k * Y) (k * Z)) =
  mkxyY (xy_x (XYZToxyY (mkXYZ X Y Z))) (xy_y (XYZToxyY (mkXYZ X Y Z)))
        (k * xy_Y (XYZToxyY (mkXYZ X Y Z))).
Proof.
  intros Hk. unfold XYZToxyY; simpl.
  destruct (Req_dec_T (X + Y + Z) 0) as [E|E].
  - replace (k * X + k * Y + k * Z) with 0 by (rewrite <- (Rmult_0_r k), <- E; ring).
    rewrite E, eqb_refl; simpl. f_equal; ring.
  - assert (E' : k * X + k * Y + k * Z <> 0).
    { replace (k * X + k * Y + k * Z) with (k * (X + Y + Z)) by ring.
      now apply Rmult_integral_contrapositive_currified. }
    rewrite !eqb_neq by assumption; simpl.
    f_equal; field; split; assumption.
Qed.

(** X5. Chromaticity does not depend on brightness: for non-negative
    X, Y, Z with a positive sum, scaling the three by the same k > 0 moves
    x and y by at most 1e-9. *)
Theorem XYZToxyY_scale_invariant (xyz : XYZColor) (k : R) :
  0 <= xyz_x xyz -> 0 <= xyz_y xyz -> 0 <= xyz_z xyz ->
  0 < xyz_x xyz + xyz_y xyz + xyz_z xyz -> 0 < k ->
  within 1e-9
    (xy_x (XYZToxyY (mkXYZ (k * xyz_x xyz) (k * xyz_y xyz) (k * xyz_z xyz))))
    (xy_x (XYZToxyY xyz)) /\
  within 1e-9
    (xy_y (XYZToxyY (mkXYZ (k * xyz_x xyz) (k * xyz_y xyz) (k * xyz_z xyz))))
    (xy_y (XYZToxyY xyz)).
Proof.
  destruct xyz as [X Y Z]; simpl. intros _ _ _ _ Hk.
  rewrite XYZToxyY_scaled by lra; simpl.
  split; apply within_refl; lra.
Qed.

Lemma XYZToxyY_scale_invariant_witness :
  within 1e-9 (xy_x (XYZToxyY (mkXYZ (2 * 1) (2 * 2) (2 * 1))))
              (xy_x (XYZToxyY (mkXYZ 1 2 1))) /\
  within 1e-9 (xy_y (XYZToxyY (mkXYZ (2 * 1) (2 * 2) (2 * 1))))
              (xy_y (XYZToxyY (mkXYZ 1 2 1))).
Proof. apply (XYZToxyY_scale_invariant (mkXYZ 1 2 1) 2); simpl; lra. Defined.

(** X6. xyY -> XYZ -> xyY gives back the input when neither the
    chromaticity y nor the luminance Y is 0. *)
Theorem xyY_roundtrip (c : xyColor) :
  xy_y c <> 0 -> xy_Y c <> 0 -> XYZToxyY (xyYToXYZ c) = c.
Proof.
  destruct c as [x y Y]; simpl; intros Hy HY.
  unfold xyYToXYZ; simpl. rewrite eqb_neq by assumption.
  unfold XYZToxyY; simpl.
  assert (E : x * Y / y + Y + (1 - x - y) * Y / y = Y / y) by (field; assumption).
  rewrite E.
  assert (Hq : Y / y <> 0).
  { unfold Rdiv. apply Rmult_integral_contrapositive_currified; auto.
    now apply Rinv_neq_0_compat. }
  rewrite eqb_neq by assumption.
  f_equal; field; split; assumption.
Qed.

Lemma xyY_roundtrip_witness :
  XYZToxyY (xyYToXYZ (mkxyY 0.3127 0.3290 1)) = mkxyY 0.3127 0.3290 1.
Proof. apply (xyY_roundtrip (mkxyY 0.3127 0.3290 1)); simpl; lra. Defined.

(** ** Matrices against the drawn polygons *)

(** [RGBToXYZ] is homogeneous. *)
Lemma RGBToXYZ_scaled (k r g b : R) (cs : ColorSpace) :
  RGBToXYZ (mkRGB (k * r) (k * g) (k * b)) cs =
  mkXYZ (k * xyz_x (RGBToXYZ (mkRGB r g b) cs))
        (k * xyz_y (RGBToXYZ (mkRGB r g b) cs))
        (k * xyz_z (RGBToXYZ (mkRGB r g b) cs)).
Proof. destruct cs; unfold RGBToXYZ, at_; simpl; f_equal; ring. Qed.

(** The chromaticity of k times a unit colour is that of the unit colour. *)
Lemma chromaticity_of_scaled (k r g b : R) (cs : ColorSpace) :
  k <> 0 ->
  xy_x (XYZToxyY (RGBToXYZ (mkRGB (k * r) (k * g) (k * b)) cs)) =
    xy_x (XYZToxyY (RGBToXYZ (mkRGB r g b) cs)) /\
  xy_y (XYZToxyY (RGBToXYZ (mkRGB (k * r) (k * g) (k * b)) cs)) =
    xy_y (XYZToxyY (RGBToXYZ (mkRGB r g b) cs)).
Proof.
  intros Hk. rewrite RGBToXYZ_scaled.
  destruct (RGBToXYZ (mkRGB r g b) cs) as [X Y Z]; simpl.
  rewrite XYZToxyY_scaled by assumption. split; reflexivity.
Qed.

(** A unit colour's chromaticity checked against a point. *)
Ltac unit_chromaticity :=
  unfold chroma_near, vertex, XYZToxyY, RGBToXYZ, at_; simpl;
  rewrite eqb_neq by lra; simpl;
  split; apply within_bounds;
  match goal with
  | |- - ?t <= ?n / ?d - ?c <= ?t =>
      pose proof (quotient_bounds n d (c - t) (c + t) ltac:(lra) ltac:(lra)); lra
  end.

Lemma primary_chromaticity (k r g b : R) (cs : ColorSpace) (p : xyPoint) :
  0 < k ->
  chroma_near 1e-4 (XYZToxyY (RGBToXYZ (mkRGB r g b) cs)) p ->
  chroma_near 1e-4 (XYZToxyY (RGBToXYZ (mkRGB (k * r) (k * g) (k * b)) cs)) p.
Proof.
  intros Hk [Hx Hy].
  destruct (chromaticity_of_scaled k r g b cs ltac:(lra)) as [Ex Ey].
  unfold chroma_near. now rewrite Ex, Ey.
Qed.

Lemma red_of (k : R) : mkRGB k 0 0 = mkRGB (k * 1) (k * 0) (k * 0).
Proof. f_equal; ring. Qed.

Lemma green_of (k : R) : mkRGB 0 k 0 = mkRGB (k * 0) (k * 1) (k * 0).
Proof. f_equal; ring. Qed.

Lemma blue_of (k : R) : mkRGB 0 0 k = mkRGB (k * 0) (k * 0) (k * 1).
Proof. f_equal; ring. Qed.

Lemma grey_of (k : R) : mkRGB k k k = mkRGB (k * 1) (k * 1) (k * 1).
Proof. f_equal; ring. Qed.

(** X7. The gamut triangles drawn on the diagram are those of the
    matrices: at any positive intensity, pure red, green and blue of sRGB,
    P3 and Rec2020 have chromaticities within 0.0001 of the first, second
    and third point of SRGB_GAMUT, P3_GAMUT and REC2020_GAMUT. *)
Theorem primaries_on_gamut_vertices (k : R) :
  0 < k ->
  (chroma_near 1e-4 (XYZToxyY (RGBToXYZ (mkRGB k 0 0) sRGB)) (vertex SRGB_GAMUT 0) /\
   chroma_near 1e-4 (XYZToxyY (RGBToXYZ (mkRGB 0 k 0) sRGB)) (vertex SRGB_GAMUT 1) /\
   chroma_near 1e-4 (XYZToxyY (RGBToXYZ (mkRGB 0 0 k) sRGB)) (vertex SRGB_GAMUT 2)) /\
  (chroma_near 1e-4 (XYZToxyY (RGBToXYZ (mkRGB k 0 0) P3)) (vertex P3_GAMUT 0) /\
   chroma_near 1e-4 (XYZToxyY (RGBToXYZ (mkRGB 0 k 0) P3)) (vertex P3_GAMUT 1) /\
   chroma_near 1e-4 (XYZToxyY (RGBToXYZ (mkRGB 0 0 k) P3)) (vertex P3_GAMUT 2)) /\
  (chroma_near 1e-4 (XYZToxyY (RGBToXYZ (mkRGB k 0 0) Rec2020)) (vertex REC2020_GAMUT 0) /\
   chroma_near 1e-4 (XYZToxyY (RGBToXYZ (mkRGB 0 k 0) Rec2020)) (vertex REC2020_GAMUT 1) /\
   chroma_near 1e-4 (XYZToxyY (RGBToXYZ (mkRGB 0 0 k) Rec2020)) (vertex REC2020_GAMUT 2)).
Proof.
  intros Hk. rewrite red_of, green_of, blue_of.
  repeat split; apply primary_chromaticity; try assumption; unit_chromaticity.
Qed.

Lemma primaries_on_gamut_vertices_witness :
  (chroma_near 1e-4 (XYZToxyY (RGBToXYZ (mkRGB 255 0 0) sRGB)) (vertex SRGB_GAMUT 0) /\
   chroma_near 1e-4 (XYZToxyY (RGBToXYZ (mkRGB 0 255 0) sRGB)) (vertex SRGB_GAMUT 1) /\
   chroma_near 1e-4 (XYZToxyY (RGBToXYZ (mkRGB 0 0 255) sRGB)) (vertex SRGB_GAMUT 2)) /\
  (chroma_near 1e-4 (XYZToxyY (RGBToXYZ (mkRGB 255 0 0) P3)) (vertex P3_GAMUT 0) /\
   chroma_near 1e-4 (XYZToxyY (RGBToXYZ (mkRGB 0 255 0) P3)) (vertex P3_GAMUT 1) /\
   chroma_near 1e-4 (XYZToxyY (RGBToXYZ (mkRGB 0 0 255) P3)) (vertex P3_GAMUT 2)) /\
  (chroma_near 1e-4 (XYZToxyY (RGBToXYZ (mkRGB 255 0 0) Rec2020)) (vertex REC2020_GAMUT 0) /\
   chroma_near 1e-4 (XYZToxyY (RGBToXYZ (mkRGB 0 255 0) Rec2020)) (vertex REC2020_GAMUT 1) /\
   chroma_near 1e-4 (XYZToxyY (RGBToXYZ (mkRGB 0 0 255) Rec2020)) (vertex REC2020_GAMUT 2)).
Proof. apply (primaries_on_gamut_vertices 255). lra. Defined.

(** The luminance row of every matrix sums to 1. *)
Lemma grey_luminance (v : R) (cs : ColorSpace) :
  xyz_y (RGBToXYZ (mkRGB v v v) cs) = v.
Proof. destruct cs; unfold RGBToXYZ, at_; simpl; lra. Qed.

Lemma grey_tristimulus_sum (v : R) (cs : ColorSpace) :
  0 < v ->
  xyz_x (RGBToXYZ (mkRGB v v v) cs) + xyz_y (RGBToXYZ (mkRGB v v v) cs)
    + xyz_z (RGBToXYZ (mkRGB v v v) cs) <> 0.
Proof. intros Hv. destruct cs; unfold RGBToXYZ, at_; simpl; lra. Qed.

(** X8. In every colour space a grey of positive level v has luminance
    Y = v within 1e-9 * v and a chromaticity within 0.0001 of the D65 white
    point drawn on the diagram. *)
Theorem grey_is_D65 (v : R) (cs : ColorSpace) :
  0 < v ->
  within (1e-9 * v) (xy_Y (XYZToxyY (RGBToXYZ (mkRGB v v v) cs))) v /\
  within 1e-4 (xy_x (XYZToxyY (RGBToXYZ (mkRGB v v v) cs))) (xy_x D65_WHITE_POINT) /\
  within 1e-4 (xy_y (XYZToxyY (RGBToXYZ (mkRGB v v v) cs))) (xy_y D65_WHITE_POINT).
Proof.
  intros Hv. split.
  - pose proof (grey_tristimulus_sum v cs Hv) as Hs.
    pose proof (grey_luminance v cs) as HY.
    destruct (RGBToXYZ (mkRGB v v v) cs) as [X Y Z]; simpl in *.
    unfold XYZToxyY; simpl. rewrite eqb_neq by assumption. simpl.
    rewrite HY. apply within_refl. lra.
  - rewrite grey_of.
    apply (primary_chromaticity v 1 1 1 cs
             (mkPoint (xy_x D65_WHITE_POINT) (xy_y D65_WHITE_POINT)) Hv).
    destruct cs; unit_chromaticity.
Qed.

Lemma grey_is_D65_witness :
  within (1e-9 * 128) (xy_Y (XYZToxyY (RGBToXYZ (mkRGB 128 128 128) P3))) 128 /\
  within 1e-4 (xy_x (XYZToxyY (RGBToXYZ (mkRGB 128 128 128) P3))) (xy_x D65_WHITE_POINT) /\
  within 1e-4 (xy_y (XYZToxyY (RGBToXYZ (mkRGB 128 128 128) P3))) (xy_y D65_WHITE_POINT).
Proof. apply (grey_is_D65 128 P3). lra. Defined.

(** ** The picker: from a pointer position to a colour *)

Lemma clamp_to_eq (lo hi v : R) :
  lo <= hi -> Math_max lo (Math_min hi v) = clamp_to lo hi v.
Proof.
  intros H. unfold Math_max, Math_min, Rmax, Rmin, clamp_to.
  destruct (Rle_dec hi v), (Rlt_dec v lo), (Rlt_dec hi v);
    try lra; destruct (Rle_dec lo hi); try lra;
    destruct (Rle_dec lo v); lra.
Qed.

Lemma clamp_to_range (lo hi v : R) : lo <= hi -> lo <= clamp_to lo hi v <= hi.
Proof.
  intros H. unfold clamp_to. destruct (Rlt_dec v lo); [lra|].
  destruct (Rlt_dec hi v); lra.
Qed.

Lemma clamp_to_inside (lo hi v : R) : lo <= v <= hi -> clamp_to lo hi v = v.
Proof.
  intros H. unfold clamp_to. destruct (Rlt_dec v lo); [lra|].
  destruct (Rlt_dec hi v); lra.
Qed.

(** X9. Whatever the pointer position, luminance and colour space, the
    colour set by [handleCanvasInteraction] passes [isInGamut], and the
    chromaticity it stores has x and y in [0,1] and Y equal to the
    luminance: a colour picked on the canvas is never reported out of
    gamut. *)
Theorem picked_colour_always_in_gamut (x y luminance : R) (cs : ColorSpace) :
  isInGamut (snd (handleCanvasInteraction x y luminance cs)) = true /\
  0 <= xy_x (fst (handleCanvasInteraction x y luminance cs)) <= 1 /\
  0 <= xy_y (fst (handleCanvasInteraction x y luminance cs)) <= 1 /\
  xy_Y (fst (handleCanvasInteraction x y luminance cs)) = luminance.
Proof.
  unfold handleCanvasInteraction; simpl.
  rewrite !(clamp_to_eq 0 255) by lra. rewrite !(clamp_to_eq 0 1) by lra.
  split; [|split; [|split]].
  - unfold isInGamut; simpl.
    rewrite !Bool.andb_true_iff, !geb_true, !leb_true.
    repeat split;
      match goal with
      | |- context [clamp_to 0 255 ?t] => pose proof (clamp_to_range 0 255 t); lra
      end.
  - apply clamp_to_range; lra.
  - apply clamp_to_range; lra.
  - reflexivity.
Qed.

Lemma marker_position (x y luminance : R) (cs : ColorSpace) :
  canvasX (xy_x (fst (handleCanvasInteraction x y luminance cs))) = clamp_to 25 375 x /\
  canvasY (xy_y (fst (handleCanvasInteraction x y luminance cs))) = clamp_to 25 375 y.
Proof.
  unfold handleCanvasInteraction; simpl.
  rewrite !(clamp_to_eq 0 1) by lra.
  unfold canvasX, canvasY, DIAGRAM_OFFSET_X, DIAGRAM_OFFSET_Y, DIAGRAM_SIZE, clamp_to.
  split.
  - destruct (Rlt_dec ((x - 25) / 350) 0), (Rlt_dec x 25); try lra.
    destruct (Rlt_dec 1 ((x - 25) / 350)), (Rlt_dec 375 x); lra.
  - destruct (Rlt_dec (1 - (y - 25) / 350) 0), (Rlt_dec y 25),
      (Rlt_dec 1 (1 - (y - 25) / 350)), (Rlt_dec 375 y); lra.
Qed.

(** X10. The marker is drawn where the pointer was: the stored
    chromaticity, put back on the canvas, is within 1e-9 of the pointer
    position brought into the diagram square [25,375] x [25,375]. *)
Theorem marker_follows_pointer (x y luminance : R) (cs : ColorSpace) :
  within 1e-9 (canvasX (xy_x (fst (handleCanvasInteraction x y luminance cs))))
              (clamp_to 25 375 x) /\
  within 1e-9 (canvasY (xy_y (fst (handleCanvasInteraction x y luminance cs))))
              (clamp_to 25 375 y).
Proof.
  destruct (marker_position x y luminance cs) as [-> ->].
  split; apply within_refl; lra.
Qed.

Lemma xyYToXYZ_at_y0 (x Y : R) : xyYToXYZ (mkxyY x 0 Y) = mkXYZ 0 0 0.
Proof. unfold xyYToXYZ; simpl. now rewrite eqb_refl. Qed.

Lemma xyYToXYZ_dark (x y : R) : xyYToXYZ (mkxyY x y 0) = mkXYZ 0 0 0.
Proof.
  unfold xyYToXYZ; simpl. destruct (y === 0); [reflexivity|].
  f_equal; unfold Rdiv; ring.
Qed.

Lemma XYZToRGB_zero (cs : ColorSpace) : XYZToRGB (mkXYZ 0 0 0) cs = mkRGB 0 0 0.
Proof. destruct cs; unfold XYZToRGB, at_; simpl; f_equal; lra. Qed.

Lemma corrected_zero : Math_max 0 (Math_min 255 (gammaCorrect 0 * 255)) = 0.
Proof.
  rewrite gammaCorrect_linear by lra.
  rewrite clamp_to_eq by lra. rewrite clamp_to_inside; lra.
Qed.

(** X11. A pointer on or below the bottom edge of the diagram (y >= 375),
    or a luminance of 0, gives black in every colour space. *)
Theorem picked_black (x y luminance : R) (cs : ColorSpace) :
  375 <= y \/ luminance = 0 ->
  snd (handleCanvasInteraction x y luminance cs) = mkRGB 0 0 0.
Proof.
  intros H. unfold handleCanvasInteraction. cbv zeta. cbn [snd].
  assert (E : xyYToXYZ
                (mkxyY (Math_max 0 (Math_min 1 ((x - DIAGRAM_OFFSET_X) / DIAGRAM_SIZE)))
                       (Math_max 0 (Math_min 1 (1 - (y - DIAGRAM_OFFSET_Y) / DIAGRAM_SIZE)))
                       luminance) = mkXYZ 0 0 0).
  { destruct H as [Hy | ->]; [|apply xyYToXYZ_dark].
    rewrite (clamp_to_eq 0 1 (1 - _)) by lra.
    replace (clamp_to 0 1 (1 - (y - DIAGRAM_OFFSET_Y) / DIAGRAM_SIZE)) with 0.
    - apply xyYToXYZ_at_y0.
    - unfold clamp_to, DIAGRAM_OFFSET_Y, DIAGRAM_SIZE.
      destruct (Rlt_dec (1 - (y - 25) / 350) 0); [reflexivity|].
      destruct (Rlt_dec 1 (1 - (y - 25) / 350)); lra. }
  rewrite E, XYZToRGB_zero. cbn [rgb_r rgb_g rgb_b].
  rewrite corrected_zero. reflexivity.
Qed.

Lemma picked_black_witness :
  snd (handleCanvasInteraction 200 380 0.5 sRGB) = mkRGB 0 0 0.
Proof. apply (picked_black 200 380 0.5 sRGB). left. lra. Defined.

(** ** The derived bundle and the export texts *)

Lemma cube_root_above_1 (v : R) : 1 < v -> 1 < Rpower v (1 / 3).
Proof.
  intros Hv. rewrite <- (Rpower_base_1 (1 / 3)) at 1.
  apply Rlt_Rpower_l; lra.
Qed.

(** X12. The component feeds channels on the 0..255 scale to the XYZ and
    LAB conversions, so its LAB lightness leaves the nominal [0,100] and its
    OKLCH lightness leaves [0,1]: for every grey of level above 1, in every
    colour space, the bundle has lab.l > 100 and oklch.l > 1. *)
Theorem bundle_lightness_off_scale (v : R) (cs : ColorSpace) :
  1 < v ->
  100 < lab_l (ci_lab (colorInfo (mkRGB v v v) cs)) /\
  1 < oklch_l (ci_oklch (colorInfo (mkRGB v v v) cs)).
Proof.
  intros Hv. unfold colorInfo; cbn [ci_lab ci_oklch].
  assert (L : 100 < lab_l (XYZToLAB (RGBToXYZ (mkRGB v v v) cs))).
  { unfold XYZToLAB; cbn [lab_l]. rewrite grey_luminance.
    replace (v / 1.00000) with v by lra.
    unfold labF, gtb. destruct (Rgt_dec v 0.008856) as [_|H]; [|lra].
    rewrite (Math_pow_fractional v (1 / 3) 0) by lra.
    pose proof (cube_root_above_1 v Hv). lra. }
  split; [exact L|].
  unfold LABToOKLCH; cbn [oklch_l]. lra.
Qed.

Lemma bundle_lightness_off_scale_witness :
  100 < lab_l (ci_lab (colorInfo (mkRGB 255 255 255) sRGB)) /\
  1 < oklch_l (ci_oklch (colorInfo (mkRGB 255 255 255) sRGB)).
Proof. apply (bundle_lightness_off_scale 255 sRGB). lra. Defined.

Lemma chromaticity_fractions (X Y Z : R) :
  0 <= X -> 0 <= Y -> 0 <= Z ->
  0 <= xy_x (XYZToxyY (mkXYZ X Y Z)) /\
  0 <= xy_y (XYZToxyY (mkXYZ X Y Z)) /\
  xy_x (XYZToxyY (mkXYZ X Y Z)) + xy_y (XYZToxyY (mkXYZ X Y Z)) <= 1.
Proof.
  intros HX HY HZ. unfold XYZToxyY; simpl.
  destruct (Req_dec_T (X + Y + Z) 0) as [E|E].
  - rewrite E, eqb_refl; simpl. lra.
  - rewrite eqb_neq by assumption; simpl.
    assert (Hs : 0 < X + Y + Z) by lra.
    pose proof (quotient_bounds X (X + Y + Z) 0 1 Hs ltac:(lra)).
    pose proof (quotient_bounds Y (X + Y + Z) 0 1 Hs ltac:(lra)).
    pose proof (quotient_bounds (X + Y) (X + Y + Z) 0 1 Hs ltac:(lra)) as H3.
    replace ((X + Y) / (X + Y + Z)) with (X / (X + Y + Z) + Y / (X + Y + Z)) in H3
      by (unfold Rdiv; ring).
    lra.
Qed.

Lemma RGBToXYZ_nonneg (rgb : RGBColor) (cs : ColorSpace) :
  in_display_range rgb ->
  0 <= xyz_x (RGBToXYZ rgb cs) /\ 0 <= xyz_y (RGBToXYZ rgb cs) /\
  0 <= xyz_z (RGBToXYZ rgb cs).
Proof.
  destruct rgb as [r g b]. unfold in_display_range; simpl. intros (Hr & Hg & Hb).
  destruct cs; unfold RGBToXYZ, at_; simpl; repeat split; lra.
Qed.

(** X13. For every colour with channels in [0,255] (black included) and
    every colour space, the chromaticity in the bundle has x >= 0, y >= 0
    and x + y <= 1 + 1e-9, and its marker position lies in the diagram
    square. *)
Theorem bundle_chromaticity_on_diagram (rgb : RGBColor) (cs : ColorSpace) :
  in_display_range rgb ->
  0 <= xy_x (ci_xy (colorInfo rgb cs)) /\
  0 <= xy_y (ci_xy (colorInfo rgb cs)) /\
  xy_x (ci_xy (colorInfo rgb cs)) + xy_y (ci_xy (colorInfo rgb cs)) <= 1 + 1e-9 /\
  25 <= canvasX (xy_x (ci_xy (colorInfo rgb cs))) <= 375 /\
  25 <= canvasY (xy_y (ci_xy (colorInfo rgb cs))) <= 375.
Proof.
  intros Hin. unfold colorInfo; cbn [ci_xy].
  destruct (RGBToXYZ_nonneg rgb cs Hin) as (HX & HY & HZ).
  destruct (RGBToXYZ rgb cs) as [X Y Z]; simpl in HX, HY, HZ.
  destruct (chromaticity_fractions X Y Z HX HY HZ) as (Hx & Hy & Hxy).
  unfold canvasX, canvasY, DIAGRAM_OFFSET_X, DIAGRAM_OFFSET_Y, DIAGRAM_SIZE.
  repeat split; lra.
Qed.

Lemma bundle_chromaticity_on_diagram_witness :
  0 <= xy_x (ci_xy (colorInfo (mkRGB 255 100 100) sRGB)) /\
  0 <= xy_y (ci_xy (colorInfo (mkRGB 255 100 100) sRGB)) /\
  xy_x (ci_xy (colorInfo (mkRGB 255 100 100) sRGB))
    + xy_y (ci_xy (colorInfo (mkRGB 255 100 100) sRGB)) <= 1 + 1e-9 /\
  25 <= canvasX (xy_x (ci_xy (colorInfo (mkRGB 255 100 100) sRGB))) <= 375 /\
  25 <= canvasY (xy_y (ci_xy (colorInfo (mkRGB 255 100 100) sRGB))) <= 375.
Proof.
  apply (bundle_chromaticity_on_diagram (mkRGB 255 100 100) sRGB).
  unfold in_display_range; simpl; lra.
Defined.

Lemma clamp255_inside (v : R) : 0 <= v <= 255 -> clamp255 v = v.
Proof.
  intros H. unfold clamp255. destruct (Rlt_dec v 0); [lra|].
  destruct (Rlt_dec 255 v); lra.
Qed.

(** X14. For channels in [0,255] the "RGB" export text is the text
    [generateCSSColor] gives for sRGB (the export rounds without clamping,
    which makes no difference in that range). *)
Theorem rgbExport_is_sRGB_css (rgb : RGBColor) :
  in_display_range rgb -> rgbExport rgb = generateCSSColor rgb sRGB.
Proof.
  intros (Hr & Hg & Hb). unfold rgbExport, generateCSSColor.
  rewrite !clamp255_eq, !clamp255_inside by assumption. reflexivity.
Qed.

Lemma rgbExport_is_sRGB_css_witness :
  rgbExport (mkRGB 255 100 100) = generateCSSColor (mkRGB 255 100 100) sRGB.
Proof.
  apply (rgbExport_is_sRGB_css (mkRGB 255 100 100)).
  unfold in_display_range; simpl; lra.
Defined.

Lemma Math_round_in_range (v : R) :
  0 <= v <= 255 -> (0 <= Math_round v <= 255)%Z.
Proof.
  intros Hv. pose proof (Math_round_nearest v) as Hn.
  unfold nearest_integer in Hn. split.
  - assert (H : IZR (-1) < IZR (Math_round v)) by lra. apply lt_IZR in H. lia.
  - assert (H : IZR (Math_round v) < IZR 256) by lra. apply lt_IZR in H. lia.
Qed.

(** Every byte prints as two hexadecimal digits that read back as the byte. *)
Lemma hex_byte_table :
  forallb (fun k =>
             let s := padStart0 2 (toString16 (Z.of_nat k)) in
             andb (Nat.eqb (String.length s) 2)
               match hex_value s with
               | Some n => Z.eqb n (Z.of_nat k)
               | None => false
               end)
    (seq 0 256) = true.
Proof. vm_compute. reflexivity. Qed.

Lemma hex_byte (n : Z) :
  (0 <= n <= 255)%Z ->
  String.length (padStart0 2 (toString16 n)) = 2%nat /\
  hex_value (padStart0 2 (toString16 n)) = Some n.
Proof.
  intros Hn. pose proof hex_byte_table as T.
  rewrite forallb_forall in T.
  specialize (T (Z.to_nat n)). rewrite Z2Nat.id in T by lia.
  assert (Hin : In (Z.to_nat n) (seq 0 256)) by (apply in_seq; lia).
  apply T in Hin. cbv zeta in Hin.
  apply Bool.andb_true_iff in Hin. destruct Hin as [Hlen Hval].
  apply Nat.eqb_eq in Hlen. split; [exact Hlen|].
  destruct (hex_value (padStart0 2 (toString16 n))) as [k|]; [|discriminate].
  apply Z.eqb_eq in Hval. now subst.
Qed.

(** X15. For channels in [0,255] the "HEX" export is "#" followed by three
    groups of exactly two hexadecimal digits, each reading back as the
    rounded channel. *)
Theorem hexExport_well_formed (rgb : RGBColor) :
  in_display_range rgb ->
  exists hr hg hb : string,
    hexExport rgb = ("#" ++ hr ++ hg ++ hb)%string /\
    String.length hr = 2%nat /\ String.length hg = 2%nat /\
    String.length hb = 2%nat /\
    hex_value hr = Some (Math_round (rgb_r rgb)) /\
    hex_value hg = Some (Math_round (rgb_g rgb)) /\
    hex_value hb = Some (Math_round (rgb_b rgb)).
Proof.
  intros (Hr & Hg & Hb).
  apply Math_round_in_range in Hr, Hg, Hb.
  destruct (hex_byte _ Hr) as [Lr Vr].
  destruct (hex_byte _ Hg) as [Lg Vg].
  destruct (hex_byte _ Hb) as [Lb Vb].
  exists (padStart0 2 (toString16 (Math_round (rgb_r rgb)))),
         (padStart0 2 (toString16 (Math_round (rgb_g rgb)))),
         (padStart0 2 (toString16 (Math_round (rgb_b rgb)))).
  repeat split; assumption || reflexivity.
Qed.

Lemma hexExport_well_formed_witness :
  exists hr hg hb : string,
    hexExport (mkRGB 255 100 100) = ("#" ++ hr ++ hg ++ hb)%string /\
    String.length hr = 2%nat /\ String.length hg = 2%nat /\
    String.length hb = 2%nat /\
    hex_value hr = Some (Math_round (rgb_r (mkRGB 255 100 100))) /\
    hex_value hg = Some (Math_round (rgb_g (mkRGB 255 100 100))) /\
    hex_value hb = Some (Math_round (rgb_b (mkRGB 255 100 100))).
Proof.
  apply (hexExport_well_formed (mkRGB 255 100 100)).
  unfold in_display_range; simpl; lra.
Defined.

(** ** More on the gamma pipeline *)

Lemma Rpower_le_1 (v c : R) : 0 < v <= 1 -> 0 <= c -> Rpower v c <= 1.
Proof.
  intros Hv Hc. rewrite <- (Rpower_base_1 c).
  apply Rle_Rpower_l; lra.
Qed.

(** Above the threshold the 2.4-th root is above 0.0904738459. *)
Lemma root_above_threshold (v : R) :
  0.0031308 < v -> 0.0904738459 < Rpower v (1 / 2.4).
Proof.
  intros Hv. apply (root_lt _ _ 11); [left; apply Rpower_pos|].
  rewrite Rpower_5_12 by lra.
  apply Rle_lt_trans with (0.0031308 ^ 5); [lra|].
  apply (pow_lt_compat 0.0031308 v 4); lra.
Qed.

Lemma Rpower_24_pow (b : R) : 0 < b -> Rpower b 2.4 ^ 5 = b ^ 12.
Proof.
  intros Hb. rewrite <- (Rpower_pow 5) by apply Rpower_pos.
  rewrite Rpower_mult.
  replace (2.4 * INR 5) with (INR 12) by (simpl; lra).
  now apply Rpower_pow.
Qed.

Lemma Rpower_inverse' (b : R) : 0 < b -> Rpower (Rpower b 2.4) (1 / 2.4) = b.
Proof.
  intros Hb. rewrite Rpower_mult.
  replace (2.4 * (1 / 2.4)) with 1 by lra.
  now apply Rpower_1.
Qed.

(** X16. Both transfer functions map [0,1] into [0,1]; they send 0 to 0,
    [gammaUncorrect] sends 1 to 1 and [gammaCorrect] sends 1 to 1 within
    1e-9. *)
Theorem gamma_unit_interval (v : R) :
  0 <= v <= 1 ->
  0 <= gammaCorrect v <= 1 /\ 0 <= gammaUncorrect v <= 1 /\
  gammaCorrect 0 = 0 /\ within 1e-9 (gammaCorrect 1) 1 /\
  gammaUncorrect 0 = 0 /\ gammaUncorrect 1 = 1.
Proof.
  intros Hv. repeat split.
  - destruct (Rle_lt_dec v 0.0031308) as [H|H].
    + rewrite gammaCorrect_linear by assumption. lra.
    + rewrite gammaCorrect_power by assumption.
      pose proof (root_above_threshold v H). lra.
  - destruct (Rle_lt_dec v 0.0031308) as [H|H].
    + rewrite gammaCorrect_linear by assumption. lra.
    + rewrite gammaCorrect_power by assumption.
      pose proof (Rpower_le_1 v (1 / 2.4) ltac:(lra) ltac:(lra)). lra.
  - destruct (Rle_lt_dec v 0.04045) as [H|H].
    + rewrite gammaUncorrect_linear by assumption. lra.
    + rewrite gammaUncorrect_power by assumption. left. apply Rpower_pos.
  - destruct (Rle_lt_dec v 0.04045) as [H|H].
    + rewrite gammaUncorrect_linear by assumption. lra.
    + rewrite gammaUncorrect_power by assumption.
      apply Rpower_le_1; [|lra]. lra.
  - rewrite gammaCorrect_linear by lra. lra.
  - rewrite gammaCorrect_power by lra. rewrite Rpower_base_1.
    apply within_bounds. lra.
  - rewrite gammaUncorrect_linear by lra. lra.
  - rewrite gammaUncorrect_power by lra.
    replace ((1 + 0.055) / 1.055) with 1 by lra. apply Rpower_base_1.
Qed.

Lemma gamma_unit_interval_witness :
  0 <= gammaCorrect 0.5 <= 1 /\ 0 <= gammaUncorrect 0.5 <= 1 /\
  gammaCorrect 0 = 0 /\ within 1e-9 (gammaCorrect 1) 1 /\
  gammaUncorrect 0 = 0 /\ gammaUncorrect 1 = 1.
Proof. apply (gamma_unit_interval 0.5). lra. Defined.

(** Decoding a value past 0.04045 gives a linear value past 0.0031308. *)
Lemma gammaUncorrect_past_threshold (e : R) :
  0.04045 < e -> 0.0031308 < gammaUncorrect e.
Proof.
  intros He. rewrite gammaUncorrect_power by assumption.
  set (b := (e + 0.055) / 1.055).
  assert (Hb : 0.09545 / 1.055 < b) by (unfold b; lra).
  apply (root_lt _ _ 4); [left; apply Rpower_pos|].
  rewrite Rpower_24_pow by lra.
  apply Rle_lt_trans with ((0.09545 / 1.055) ^ 12); [lra|].
  apply (pow_lt_compat _ b 11); lra.
Qed.

(** Encoding a decoded value, over the reals: exact below the seam. *)
Lemma encode_decode_low (e : R) :
  e <= 0.040449936 -> gammaCorrect (gammaUncorrect e) = e.
Proof.
  intros He. rewrite gammaUncorrect_linear by lra.
  rewrite gammaCorrect_linear by lra. lra.
Qed.

(** ... and exact above it. *)
Lemma encode_decode_high (e : R) :
  0.04045 < e -> gammaCorrect (gammaUncorrect e) = e.
Proof.
  intros He. pose proof (gammaUncorrect_past_threshold e He) as Hu.
  rewrite gammaCorrect_power by assumption.
  rewrite gammaUncorrect_power by assumption.
  rewrite Rpower_inverse' by lra. lra.
Qed.

(** X17. The other way round: for e in [0,1], encoding the decoded value
    of e gives e back within 3.2e-8 (the seam between
    12.92 * 0.0031308 = 0.040449936 and 0.04045 is where the two segments
    do not meet). *)
Theorem gamma_encode_after_decode (e : R) :
  0 <= e <= 1 -> within 3.2e-8 (gammaCorrect (gammaUncorrect e)) e.
Proof.
  intros _. destruct (Rle_lt_dec e 0.040449936) as [H1|H1].
  - rewrite encode_decode_low by assumption. apply within_refl; lra.
  - destruct (Rle_lt_dec e 0.04045) as [H2|H2].
    + apply within_bounds.
      rewrite gammaUncorrect_linear by assumption.
      set (u := e / 12.92).
      assert (Hu : 0.0031308 < u <= 0.003130806) by (unfold u; lra).
      assert (Henc : gammaCorrect u <= 0.04045).
      { rewrite gammaCorrect_power by lra.
        assert (Rpower u (1 / 2.4) <= 0.09545 / 1.055); [|lra].
        apply (root_le _ _ 11); [lra|]. rewrite Rpower_5_12 by lra.
        apply Rle_trans with (0.003130806 ^ 5); [|lra].
        apply pow_incr; lra. }
      pose proof (gamma_seam_bound u ltac:(lra) Henc) as Hb.
      rewrite gammaUncorrect_linear in Hb by assumption.
      assert (Eu : e = 12.92 * u) by (unfold u; lra). lra.
    + rewrite encode_decode_high by assumption. apply within_refl; lra.
Qed.

Lemma gamma_encode_after_decode_witness :
  within 3.2e-8 (gammaCorrect (gammaUncorrect 0.5)) 0.5.
Proof. apply (gamma_encode_after_decode 0.5). lra. Defined.

(** X18. [gammaCorrect] steps down at the threshold: it never decreases
    by more than 2.9e-8 between two ordered inputs, and it does decrease by
    more than 2e-8 from 0.0031308 to 0.0031308001. *)
Theorem gammaCorrect_nearly_monotone :
  (forall a b : R, a <= b -> gammaCorrect a <= gammaCorrect b + 2.9e-8) /\
  gammaCorrect 0.0031308001 < gammaCorrect 0.0031308 - 2e-8.
Proof.
  split.
  - intros a b Hab.
    destruct (Rle_lt_dec b 0.0031308) as [Hb|Hb].
    + rewrite !gammaCorrect_linear by lra. lra.
    + rewrite (gammaCorrect_power b) by assumption.
      destruct (Rle_lt_dec a 0.0031308) as [Ha|Ha].
      * rewrite gammaCorrect_linear by assumption.
        pose proof (root_above_threshold b Hb). lra.
      * rewrite gammaCorrect_power by assumption.
        assert (Rpower a (1 / 2.4) <= Rpower b (1 / 2.4)); [|lra].
        apply Rle_Rpower_l; lra.
  - rewrite (gammaCorrect_linear 0.0031308) by lra.
    rewrite (gammaCorrect_power 0.0031308001) by lra.
    assert (Rpower 0.0031308001 (1 / 2.4) <= 0.0904738475); [|lra].
    apply (root_le _ _ 11); [lra|]. rewrite Rpower_5_12 by lra. lra.
Qed.

(** ** More on LAB *)

Lemma labF_linear (t : R) : t <= 0.008856 -> labF t = 7.787 * t + 16 / 116.
Proof.
  intros H. unfold labF, gtb.
  destruct (Rgt_dec t 0.008856); [lra | reflexivity].
Qed.

Lemma labF_root (t : R) : 0.008856 < t -> labF t = Rpower t (1 / 3).
Proof.
  intros H. unfold labF, gtb.
  destruct (Rgt_dec t 0.008856); [|lra].
  now rewrite (Math_pow_fractional t (1 / 3) 0) by lra.
Qed.

Lemma cube_of_root (t : R) : 0 < t -> Rpower t (1 / 3) ^ 3 = t.
Proof.
  intros Ht. rewrite <- (Rpower_pow 3) by apply Rpower_pos.
  rewrite Rpower_mult.
  replace (1 / 3 * INR 3) with 1 by (simpl; lra).
  now apply Rpower_1.
Qed.

(** [labF] never decreases; at 0.008856 the cube root takes over from
    slightly above the line. *)
Lemma labF_monotone (s t : R) : s <= t -> labF s <= labF t.
Proof.
  intros Hst. destruct (Rle_lt_dec t 0.008856) as [Ht|Ht].
  - rewrite !labF_linear by lra. lra.
  - rewrite (labF_root t) by assumption.
    destruct (Rle_lt_dec s 0.008856) as [Hs|Hs].
    + rewrite labF_linear by assumption.
      assert (0.2068927065 < Rpower t (1 / 3)); [|lra].
      apply (root_lt _ _ 2); [left; apply Rpower_pos|].
      rewrite cube_of_root by lra. lra.
    + rewrite labF_root by assumption. apply Rle_Rpower_l; lra.
Qed.

(** Over the reals every multiple of the reference white is neutral. *)
Lemma neutral_axis (k : R) :
  lab_a (XYZToLAB (mkXYZ (k * 0.95047) k (k * 1.08883))) = 0 /\
  lab_b (XYZToLAB (mkXYZ (k * 0.95047) k (k * 1.08883))) = 0.
Proof.
  unfold XYZToLAB; simpl.
  replace (k * 0.95047 / 0.95047) with k by lra.
  replace (k / 1.00000) with k by lra.
  replace (k * 1.08883 / 1.08883) with k by lra.
  split; ring.
Qed.

(** X19. The multiples k * (0.95047, 1, 1.08883) of the reference white,
    for k from 0.01 to 100, are neutral: a and b are 0 within 1e-9. *)
Theorem XYZToLAB_neutral_axis (k : R) :
  0.01 <= k <= 100 ->
  within 1e-9 (lab_a (XYZToLAB (mkXYZ (k * 0.95047) k (k * 1.08883)))) 0 /\
  within 1e-9 (lab_b (XYZToLAB (mkXYZ (k * 0.95047) k (k * 1.08883)))) 0.
Proof.
  intros _. destruct (neutral_axis k) as [-> ->].
  split; apply within_refl; lra.
Qed.

Lemma XYZToLAB_neutral_axis_witness :
  within 1e-9 (lab_a (XYZToLAB (mkXYZ (55 * 0.95047) 55 (55 * 1.08883)))) 0 /\
  within 1e-9 (lab_b (XYZToLAB (mkXYZ (55 * 0.95047) 55 (55 * 1.08883)))) 0.
Proof. apply (XYZToLAB_neutral_axis 55). lra. Defined.

(** X20. The LAB lightness depends on Y only and never decreases when Y
    grows. *)
Theorem XYZToLAB_lightness_monotone (p q : XYZColor) :
  xyz_y p <= xyz_y q -> lab_l (XYZToLAB p) <= lab_l (XYZToLAB q).
Proof.
  intros H. unfold XYZToLAB; simpl.
  assert (labF (xyz_y p / 1.00000) <= labF (xyz_y q / 1.00000)); [|lra].
  apply labF_monotone. lra.
Qed.

Lemma XYZToLAB_lightness_monotone_witness :
  lab_l (XYZToLAB (mkXYZ 0.2 0.1 0.3)) <= lab_l (XYZToLAB (mkXYZ 0 0.5 1)).
Proof.
  apply (XYZToLAB_lightness_monotone (mkXYZ 0.2 0.1 0.3) (mkXYZ 0 0.5 1)).
  simpl; lra.
Defined.

(** X21. For Y in [0,1] the LAB lightness is in [0,100], whatever X and Z
    are. *)
Theorem XYZToLAB_lightness_range (xyz : XYZColor) :
  0 <= xyz_y xyz <= 1 -> 0 <= lab_l (XYZToLAB xyz) <= 100.
Proof.
  intros [H0 H1]. unfold XYZToLAB; simpl.
  replace (xyz_y xyz / 1.00000) with (xyz_y xyz) by lra.
  pose proof (labF_monotone 0 (xyz_y xyz) H0) as Hlo.
  pose proof (labF_monotone (xyz_y xyz) 1 H1) as Hhi.
  rewrite labF_1 in Hhi. rewrite (labF_linear 0) in Hlo by lra. lra.
Qed.

Lemma XYZToLAB_lightness_range_witness :
  0 <= lab_l (XYZToLAB (mkXYZ 0.3 0.5 0.2)) <= 100.
Proof. apply (XYZToLAB_lightness_range (mkXYZ 0.3 0.5 0.2)). simpl; lra. Defined.

(** ** More on LAB -> OKLCH *)

Lemma sqrt_1_plus_sqr_pos (t : R) : 0 < sqrt (1 + t²).
Proof. apply sqrt_lt_R0. unfold Rsqr. nra. Qed.

(** The norm of (a, b) when a is not 0. *)
Lemma norm_factor (a b : R) :
  a <> 0 -> sqrt (a * a + b * b) = Rabs a * sqrt (1 + (b / a)²).
Proof.
  intros Ha. rewrite <- sqrt_Rsqr_abs.
  rewrite <- sqrt_mult_alt by apply Rle_0_sqr.
  f_equal. unfold Rsqr. field. assumption.
Qed.

(** Polar to Cartesian for the angle [Math.atan2] gives. *)
Lemma atan2_polar (b a : R) :
  sqrt (a * a + b * b) * cos (Math_atan2 b a) = a /\
  sqrt (a * a + b * b) * sin (Math_atan2 b a) = b.
Proof.
  unfold Math_atan2.
  destruct (Rlt_dec 0 a) as [Ha|Ha]; [|destruct (Rlt_dec a 0) as [Ha'|Ha']].
  - rewrite norm_factor by lra. rewrite Rabs_pos_eq by lra.
    rewrite cos_atan, sin_atan.
    pose proof (sqrt_1_plus_sqr_pos (b / a)) as Hs.
    split; field; lra.
  - rewrite norm_factor by lra. rewrite Rabs_left by lra.
    pose proof (sqrt_1_plus_sqr_pos (b / a)) as Hs.
    destruct (Rle_dec 0 b).
    + rewrite neg_cos, neg_sin, cos_atan, sin_atan. split; field; lra.
    + replace (atan (b / a) - PI) with (- (- atan (b / a) + PI)) by ring.
      rewrite cos_neg, sin_neg, neg_cos, neg_sin, cos_neg, sin_neg.
      rewrite cos_atan, sin_atan. split; field; lra.
  - assert (a = 0) by lra. subst a.
    replace (0 * 0 + b * b) with (b * b) by ring.
    destruct (Rlt_dec 0 b) as [Hb|Hb]; [|destruct (Rlt_dec b 0) as [Hb'|Hb']].
    + rewrite sqrt_square by lra. rewrite cos_PI2, sin_PI2. split; ring.
    + replace (b * b) with (- b * - b) by ring. rewrite sqrt_square by lra.
      replace (- PI / 2) with (- (PI / 2)) by lra.
      rewrite cos_neg, sin_neg, cos_PI2, sin_PI2. split; ring.
    + assert (b = 0) by lra. subst b.
      replace (0 * 0) with 0 by ring. rewrite sqrt_0. split; ring.
Qed.

Lemma to_radians (t : R) : t * 180 / Math_PI * PI / 180 = t.
Proof. unfold Math_PI. field. pose proof PI_RGT_0. lra. Qed.

(** X22. [LABToOKLCH] loses nothing of a and b: with the hue read in
    degrees, a = 100 c cos h and b = 100 c sin h. *)
Theorem LABToOKLCH_polar (lab : LABColor) :
  lab_a lab =
    100 * oklch_c (LABToOKLCH lab) * cos (oklch_h (LABToOKLCH lab) * PI / 180) /\
  lab_b lab =
    100 * oklch_c (LABToOKLCH lab) * sin (oklch_h (LABToOKLCH lab) * PI / 180).
Proof.
  destruct lab as [l a b]. unfold LABToOKLCH; simpl.
  destruct (atan2_polar b a) as [Hc Hs].
  set (t := Math_atan2 b a) in *.
  unfold Math_sqrt. set (n := sqrt (a * a + b * b)) in *.
  assert (E : (if t * 180 / Math_PI <? 0 then t * 180 / Math_PI + 360
               else t * 180 / Math_PI) * PI / 180 = t \/
              (if t * 180 / Math_PI <? 0 then t * 180 / Math_PI + 360
               else t * 180 / Math_PI) * PI / 180 = t + 2 * PI).
  { destruct (t * 180 / Math_PI <? 0).
    - right. rewrite <- (to_radians t) at 2. field.
      unfold Math_PI. pose proof PI_RGT_0. lra.
    - left. apply to_radians. }
  destruct E as [-> | ->].
  - split; lra.
  - rewrite cos_plus, sin_plus, cos_2PI, sin_2PI. split; lra.
Qed.

(** ** More on the CSS text *)

Lemma channel_of_clamped (v : R) :
  Math_round (Math_max 0 (Math_min 255 (clamp255 v))) =
  Math_round (Math_max 0 (Math_min 255 v)).
Proof.
  rewrite !clamp255_eq. f_equal.
  apply clamp255_inside, clamp255_range.
Qed.

(** X23. In every colour space an out-of-range colour is written exactly
    like the colour obtained by clamping its channels to [0,255] first. *)
Theorem generateCSSColor_clamps (rgb : RGBColor) (cs : ColorSpace) :
  generateCSSColor
    (mkRGB (clamp255 (rgb_r rgb)) (clamp255 (rgb_g rgb)) (clamp255 (rgb_b rgb))) cs =
  generateCSSColor rgb cs.
Proof.
  unfold generateCSSColor; cbn [rgb_r rgb_g rgb_b].
  now rewrite !channel_of_clamped.
Qed.

(** X24. For Rec2020 the text is "color(rec2020 r g b)" where r, g, b are
    the clamped, rounded channels divided by 255 and written with four
    decimals, the same three numbers as in the P3 text. *)
Theorem generateCSSColor_rec2020 (rgb : RGBColor) :
  exists r g b : Z,
    clamped_rounded (rgb_r rgb) r /\
    clamped_rounded (rgb_g rgb) g /\
    clamped_rounded (rgb_b rgb) b /\
    generateCSSColor rgb Rec2020 =
      ("color(rec2020 " ++ decimal4 (quotient_255_e4 r) ++ " "
         ++ decimal4 (quotient_255_e4 g) ++ " "
         ++ decimal4 (quotient_255_e4 b) ++ ")")%string /\
    generateCSSColor rgb P3 = display_p3_text r g b.
Proof.
  destruct rgb as [vr vg vb]; simpl.
  pose proof (channel_clamped_rounded vr) as Hr.
  pose proof (channel_clamped_rounded vg) as Hg.
  pose proof (channel_clamped_rounded vb) as Hb.
  set (r := Math_round (Math_max 0 (Math_min 255 vr))) in *.
  set (g := Math_round (Math_max 0 (Math_min 255 vg))) in *.
  set (b := Math_round (Math_max 0 (Math_min 255 vb))) in *.
  exists r, g, b. repeat (split; [assumption|]).
  unfold generateCSSColor, display_p3_text; simpl. fold r g b.
  destruct Hr as [Hr _], Hg as [Hg _], Hb as [Hb _].
  rewrite !toFixed_quotient by lia.
  rewrite !fixed_string_decimal4 by (apply quotient_255_e4_range; lia).
  split; reflexivity.
Qed.
